(** * loggy: styled console logging

    A shallow embedding of [src/loggy/__init__.py]: the [LogStyle] record,
    the [STYLES] preset table, [get_style], and the [Log] class with its
    five emission methods, followed by the properties of the design
    document that concern them.

    Python values are embedded as follows.
    - A [str] is the list of its Unicode code points ([pystr]).  The icon
      literals of the source file are kept code point by code point, as
      the interpreter decodes them from the file.
    - A dict with string keys is a [gmap pystr _].
    - A raised exception is the [Raise] constructor of [result]; module
      globals, the process environment and the stream objects live in an
      explicit [World] threaded through a state-and-error monad [M].
    - A stream object is a cell of the world addressed by a [stream_id],
      so that two handles to one stream alias. *)

From Stdlib Require Import NArith ZArith List String Ascii Decimal DecimalString DecimalZ.
From stdpp Require Import base option list gmap.
Import ListNotations.

Local Open Scope N_scope.

(** ** Strings *)

(** A Python [str]: a sequence of code points. *)
Abbreviation pystr := (list N).

(** ASCII literals of the source, written as Rocq strings. *)
Definition lit (s : string) : pystr :=
  map N_of_ascii (list_ascii_of_string s).
Arguments lit s%_string.

(** Truth value of a [str]: non-empty. *)
Definition truthy (s : pystr) : bool :=
  match s with [] => false | _ :: _ => true end.

(** [str.isspace] for one code point: the code points whose
    bidirectional class is WS, B or S, or whose category is Zs. *)
Definition isspace (c : N) : bool :=
  ((0x09 <=? c) && (c <=? 0x0D)) || ((0x1C <=? c) && (c <=? 0x20))
  || (c =? 0x85) || (c =? 0xA0) || (c =? 0x1680)
  || ((0x2000 <=? c) && (c <=? 0x200A))
  || (c =? 0x2028) || (c =? 0x2029) || (c =? 0x202F) || (c =? 0x205F)
  || (c =? 0x3000).

(** [s.lstrip()], [s.rstrip()] and [s.strip()] without argument. *)
Fixpoint lstrip (s : pystr) : pystr :=
  match s with
  | c :: s' => if isspace c then lstrip s' else s
  | [] => []
  end.

Definition rstrip (s : pystr) : pystr := rev (lstrip (rev s)).

Definition strip (s : pystr) : pystr := rstrip (lstrip s).

(** [s.lower()].  Only the ASCII capitals are mapped here.  The others that
    Python lowers map to non-ASCII code points, except U+212A (to [k]) and
    U+0130 (to [i] and U+0307): no string outside ASCII becomes a word over
    the letters of ["1"], ["true"], ["yes"], the only use made of it. *)
Definition lower_char (c : N) : N :=
  if (0x41 <=? c) && (c <=? 0x5A) then c + 32 else c.

Definition lower (s : pystr) : pystr := map lower_char s.

(** [sep.join(parts)]. *)
Fixpoint join (sep : pystr) (parts : list pystr) : pystr :=
  match parts with
  | [] => []
  | [p] => p
  | p :: rest => p ++ sep ++ join sep rest
  end.

(** ** Exceptions *)

(** The exception classes that occur; all derive from [Exception]. *)
Inductive exn := AttributeError | KeyError | OSError | TypeError | ValueError.

Inductive result (A : Type) :=
| Ok (a : A)
| Raise (e : exn).

Arguments Ok {A} a.

Arguments Raise {A} e.

(** ** Message parts *)

(** The values passed as message parts; [str] below renders them. *)
Inductive pyobj :=
| PStr (s : pystr)
| PInt (z : Z)
| PBool (b : bool)
| PNone.

Fixpoint digits (u : Decimal.uint) : pystr :=
  match u with
  | Nil => []
  | D0 u => 0x30 :: digits u | D1 u => 0x31 :: digits u
  | D2 u => 0x32 :: digits u | D3 u => 0x33 :: digits u
  | D4 u => 0x34 :: digits u | D5 u => 0x35 :: digits u
  | D6 u => 0x36 :: digits u | D7 u => 0x37 :: digits u
  | D8 u => 0x38 :: digits u | D9 u => 0x39 :: digits u
  end.

(** The default limit of the interpreter on the number of digits of an
    [int] converted to [str] ([sys.get_int_max_str_digits()]). *)
Definition int_max_str_digits : nat := 4300.

(** [str(z)] for an [int]: the decimal digits, behind a minus sign for a
    negative number; [ValueError] when there are more digits than the
    limit. *)
Definition str_of_int (z : Z) : result pystr :=
  match Z.to_int z with
  | Pos u =>
      if (int_max_str_digits <? nb_digits u)%nat then Raise ValueError
      else Ok (digits u)
  | Neg u =>
      if (int_max_str_digits <? nb_digits u)%nat then Raise ValueError
      else Ok (0x2D :: digits u)
  end.

Definition str (m : pyobj) : result pystr :=
  match m with
  | PStr s => Ok s
  | PInt z => str_of_int z
  | PBool true => Ok (lit "True")
  | PBool false => Ok (lit "False")
  | PNone => Ok (lit "None")
  end.

(** The generator [str(m) for m in msg], run to its end: the renderings
    in order, or the exception of the first part that cannot be rendered. *)
Fixpoint render_all (msg : list pyobj) : result (list pystr) :=
  match msg with
  | [] => Ok []
  | m :: rest =>
      match str m with
      | Ok s =>
          match render_all rest with
          | Ok parts => Ok (s :: parts)
          | Raise e => Raise e
          end
      | Raise e => Raise e
      end
  end.

(** ** Colours *)

Module bcolors.
Definition ESC : N := 0x1B.
Definition OKBLUE : pystr := ESC :: lit "[94m".
Definition OKGREEN : pystr := ESC :: lit "[92m".
Definition FAIL : pystr := ESC :: lit "[91m".
Definition ENDC : pystr := ESC :: lit "[0m".
Definition WARNING_ORANGE : pystr := ESC :: lit "[38;5;208m".
Definition DIM : pystr := ESC :: lit "[2m".
Definition BOLD : pystr := ESC :: lit "[1m".
Definition CYAN : pystr := ESC :: lit "[96m".
Definition GRAY : pystr := ESC :: lit "[90m".
End bcolors.

(** ** Styles *)

(** The frozen dataclass [LogStyle]: fifteen [str] fields. *)
Record LogStyle := mkLogStyle {
  log_label : pystr;
  ok_label : pystr;
  info_label : pystr;
  warn_label : pystr;
  err_label : pystr;
  log_icon : pystr;
  ok_icon : pystr;
  info_icon : pystr;
  warn_icon : pystr;
  err_icon : pystr;
  log_color : pystr;
  ok_color : pystr;
  info_color : pystr;
  warn_color : pystr;
  err_color : pystr
}.

(** [LogStyle()]: every field at its declared default. *)
Definition LogStyle_default : LogStyle := {|
  log_label := lit "[Log]";
  ok_label := lit "[OK]";
  info_label := lit "[Info]";
  warn_label := lit "[Warn]";
  err_label := lit "[Error]";
  log_icon := [0xE2; 0x20AC; 0xA2];
  ok_icon := [0xE2; 0x153; 0x2026];
  info_icon := [0xE2; 0x201E; 0xB9; 0xEF; 0xB8];
  warn_icon := [0xE2; 0x161; 0xA0; 0xEF; 0xB8];
  err_icon := [0xE2; 0x152];
  log_color := bcolors.DIM;
  ok_color := bcolors.OKGREEN;
  info_color := bcolors.OKBLUE;
  warn_color := bcolors.WARNING_ORANGE;
  err_color := bcolors.FAIL
|}.

(** The constructor call [LogStyle(k1=v1, ...)] of the preset table is
    written as a record update of [LogStyle_default]. *)
Definition style_classic : LogStyle := {|
  log_icon := []; ok_icon := []; info_icon := []; warn_icon := []; err_icon := [];
  log_label := lit "[LOG]";
  ok_label := lit "[OK]";
  info_label := lit "[INFO]";
  warn_label := lit "[WARN]";
  err_label := lit "[ERR]";
  log_color := log_color LogStyle_default;
  ok_color := ok_color LogStyle_default;
  info_color := info_color LogStyle_default;
  warn_color := warn_color LogStyle_default;
  err_color := err_color LogStyle_default
|}.

Definition style_minimal : LogStyle := {|
  log_icon := [0xE2; 0x20AC; 0xA2];
  ok_icon := [0xE2; 0x153; 0x201C];
  info_icon := lit "i";
  warn_icon := lit "!";
  err_icon := lit "x";
  log_label := []; ok_label := []; info_label := []; warn_label := []; err_label := [];
  log_color := bcolors.GRAY;
  ok_color := ok_color LogStyle_default;
  info_color := bcolors.GRAY;
  warn_color := bcolors.WARNING_ORANGE;
  err_color := bcolors.FAIL
|}.

Definition style_cli : LogStyle := {|
  log_icon := [0xE2; 0x20AC; 0xBA];
  ok_icon := [0xE2; 0x153; 0x201D];
  info_icon := [0xE2; 0x201E; 0xB9];
  warn_icon := [0xE2; 0x2013; 0xB2];
  err_icon := [0xE2; 0x153; 0x2013];
  log_label := lit "[step]";
  ok_label := lit "[ok]";
  info_label := lit "[info]";
  warn_label := lit "[warn]";
  err_label := lit "[error]";
  log_color := bcolors.DIM;
  ok_color := bcolors.OKGREEN;
  info_color := bcolors.CYAN;
  warn_color := bcolors.WARNING_ORANGE;
  err_color := bcolors.FAIL
|}.

Definition style_emoji : LogStyle := {|
  log_icon := [0xF0; 0x178; 0x201C];
  ok_icon := [0xE2; 0x153; 0x2026];
  info_icon := [0xF0; 0x178; 0xA7; 0xA0];
  warn_icon := [0xE2; 0x161; 0xA0; 0xEF; 0xB8];
  err_icon := [0xF0; 0x178; 0x2019; 0xA5];
  log_label := lit "[Log]";
  ok_label := lit "[OK]";
  info_label := lit "[Info]";
  warn_label := lit "[Warn]";
  err_label := lit "[Error]";
  log_color := log_color LogStyle_default;
  ok_color := ok_color LogStyle_default;
  info_color := info_color LogStyle_default;
  warn_color := warn_color LogStyle_default;
  err_color := err_color LogStyle_default
|}.

Definition style_plain : LogStyle := {|
  log_icon := []; ok_icon := []; info_icon := []; warn_icon := []; err_icon := [];
  log_color := []; ok_color := []; info_color := []; warn_color := []; err_color := [];
  log_label := log_label LogStyle_default;
  ok_label := ok_label LogStyle_default;
  info_label := info_label LogStyle_default;
  warn_label := warn_label LogStyle_default;
  err_label := err_label LogStyle_default
|}.

(** The module global [STYLES], as the dict literal builds it. *)
Definition STYLES : gmap pystr LogStyle :=
  <[lit "plain" := style_plain]>
  (<[lit "emoji" := style_emoji]>
  (<[lit "cli" := style_cli]>
  (<[lit "minimal" := style_minimal]>
  (<[lit "classic" := style_classic]>
  (<[lit "default" := LogStyle_default]> ∅))))).

(** The names of the dataclass fields, the only keywords its constructor
    accepts. *)
Definition LogStyle_fields : list pystr :=
  map lit ["log_label"; "ok_label"; "info_label"; "warn_label"; "err_label";
           "log_icon"; "ok_icon"; "info_icon"; "warn_icon"; "err_icon";
           "log_color"; "ok_color"; "info_color"; "warn_color"; "err_color"]%string.

(** ** Exceptions, the world, and the monad *)

(** What a stream has been asked to do, oldest first. *)
Inductive Event :=
| Write (text : pystr)
| Flush.

(** A stream object: what its [isatty()] does when called (an object
    without the method raises [AttributeError]) and the calls of [write]
    and [flush] it has received.  The sinks accept every write. *)
Record Stream := mkStream {
  isatty : result bool;
  events : list Event
}.

Abbreviation stream_id := nat.

Record World := mkWorld {
  w_STYLES : gmap pystr LogStyle;    (* the module global STYLES *)
  environ : gmap pystr pystr;        (* os.environ *)
  streams : stream_id -> Stream      (* the stream objects *)
}.

Definition M (A : Type) : Type := World -> result A * World.

#[global] Instance M_ret : MRet M := fun A a w => (Ok a, w).

#[global] Instance M_bind : MBind M := fun A B k c w =>
  match c w with
  | (Ok a, w') => k a w'
  | (Raise e, w') => (Raise e, w')
  end.

(** Raise the exception of a pure computation, or return its value. *)
Definition lift {A} (r : result A) : M A := fun w => (r, w).

(** [try: c  except Exception: h] *)
Definition try_except {A} (c : M A) (h : M A) : M A := fun w =>
  match c w with
  | (Ok a, w') => (Ok a, w')
  | (Raise _, w') => h w'
  end.

Definition read_STYLES : M (gmap pystr LogStyle) := fun w => (Ok (w_STYLES w), w).

(** [os.getenv(key, default)] *)
Definition getenv (key dflt : pystr) : M pystr := fun w =>
  (Ok (default dflt (environ w !! key)), w).

Definition upd_stream (sid : stream_id) (f : Stream -> Stream) (w : World) : World :=
  {| w_STYLES := w_STYLES w;
     environ := environ w;
     streams := fun i => if decide (i = sid) then f (streams w i) else streams w i |}.

Definition record (e : Event) (s : Stream) : Stream :=
  {| isatty := isatty s; events := events s ++ [e] |}.

(** [stream.isatty()], [stream.write(text)], [stream.flush()] *)
Definition stream_isatty (sid : stream_id) : M bool := fun w =>
  (isatty (streams w sid), w).

Definition stream_write (sid : stream_id) (text : pystr) : M unit := fun w =>
  (Ok tt, upd_stream sid (record (Write text)) w).

Definition stream_flush (sid : stream_id) : M unit := fun w =>
  (Ok tt, upd_stream sid (record Flush) w).

(** [d[k]] *)
Definition getitem {V} (d : gmap pystr V) (k : pystr) : result V :=
  match d !! k with
  | Some v => Ok v
  | None => Raise KeyError
  end.

(** ** Style resolution *)

(** [dataclasses.replace(obj, **changes)]: every field not named in
    [changes] is taken from [obj], and the constructor is called with the
    lot; it raises [TypeError] on a keyword that is not a field. *)
Definition replace (obj : LogStyle) (changes : gmap pystr pystr) : result LogStyle :=
  if decide (dom changes ⊆ list_to_set LogStyle_fields) then
    let f (name : pystr) (get : LogStyle -> pystr) :=
      default (get obj) (changes !! name) in
    Ok {| log_label := f (lit "log_label") log_label;
          ok_label := f (lit "ok_label") ok_label;
          info_label := f (lit "info_label") info_label;
          warn_label := f (lit "warn_label") warn_label;
          err_label := f (lit "err_label") err_label;
          log_icon := f (lit "log_icon") log_icon;
          ok_icon := f (lit "ok_icon") ok_icon;
          info_icon := f (lit "info_icon") info_icon;
          warn_icon := f (lit "warn_icon") warn_icon;
          err_icon := f (lit "err_icon") err_icon;
          log_color := f (lit "log_color") log_color;
          ok_color := f (lit "ok_color") ok_color;
          info_color := f (lit "info_color") info_color;
          warn_color := f (lit "warn_color") warn_color;
          err_color := f (lit "err_color") err_color |}
  else Raise TypeError.

(** [get_style(name, **overrides)], [name] given by position.  A keyword
    [name=...] among the overrides collides with the positional argument:
    the call raises [TypeError] before the body runs. *)
Definition get_style (name : pystr) (overrides : gmap pystr pystr) : M LogStyle :=
  if decide (is_Some (overrides !! lit "name")) then lift (Raise TypeError)
  else
    tbl ← read_STYLES;
    dflt ← lift (getitem tbl (lit "default"));
    let base := default dflt (tbl !! name) in
    if decide (overrides = ∅) then mret base else lift (replace base overrides).

(** ** The logger *)

Inductive StyleArg :=
| StyleStr (name : pystr)
| StyleObj (s : LogStyle)
| StyleNone.

Record Log := mkLog {
  debug : bool;
  style : LogStyle;
  use_color : bool;
  use_icons : bool;
  out : stream_id;
  err_stream : stream_id
}.

Definition _is_tty (stream : stream_id) : M bool :=
  try_except (stream_isatty stream) (mret false).

(** [Log.__init__].  [a or b] and [a and b] evaluate [b] only when needed. *)
Definition __init__ (debug verbose use_color use_icons : bool) (style : StyleArg)
    (stream_out stream_err : stream_id) : M Log :=
  self_debug ← (if debug then mret true else
                  v ← getenv (lit "DEBUG_LOGS") [];
                  mret (bool_decide (lower v ∈@{gset pystr}
                                       {[ lit "1"; lit "true"; lit "yes" ]})));
  self_style ← match style with
               | StyleStr name => get_style name ∅
               | StyleObj s => mret s
               | StyleNone => tbl ← read_STYLES; lift (getitem tbl (lit "default"))
               end;
  self_use_color ← (if use_color then _is_tty stream_out else mret false);
  self_use_icons ← (if use_icons then _is_tty stream_out else mret false);
  mret {| debug := self_debug; style := self_style;
          use_color := self_use_color; use_icons := self_use_icons;
          out := stream_out; err_stream := stream_err |}.

Definition _fmt (msg : list pyobj) : result pystr :=
  match render_all msg with
  | Ok parts => Ok (join (lit " ") parts)
  | Raise e => Raise e
  end.

Definition _prefix (self : Log) (icon label : pystr) : pystr :=
  let label := strip label in
  if use_icons self && truthy icon then strip (icon ++ lit " " ++ label)
  else if truthy label then label else [].

Definition _write (self : Log) (stream : stream_id) (prefix color : pystr)
    (msg : list pyobj) : M unit :=
  text ← lift (_fmt msg);
  let line := if truthy prefix then prefix ++ lit " " ++ text else text in
  (if use_color self && truthy color
   then stream_write stream (color ++ line ++ bcolors.ENDC ++ [0x0A])
   else stream_write stream (line ++ [0x0A]));;
  stream_flush stream.

Definition log (self : Log) (msg : list pyobj) : M unit :=
  if debug self then
    _write self (out self)
      (_prefix self (log_icon (style self)) (log_label (style self)))
      (log_color (style self)) msg
  else mret tt.

Definition ok (self : Log) (msg : list pyobj) : M unit :=
  _write self (out self)
    (_prefix self (ok_icon (style self)) (ok_label (style self)))
    (ok_color (style self)) msg.

Definition info (self : Log) (msg : list pyobj) : M unit :=
  if debug self then
    _write self (out self)
      (_prefix self (info_icon (style self)) (info_label (style self)))
      (info_color (style self)) msg
  else mret tt.

Definition warn (self : Log) (msg : list pyobj) : M unit :=
  _write self (out self)
    (_prefix self (warn_icon (style self)) (warn_label (style self)))
    (warn_color (style self)) msg.

Definition err (self : Log) (msg : list pyobj) : M unit :=
  _write self (err_stream self)
    (_prefix self (err_icon (style self)) (err_label (style self)))
    (err_color (style self)) msg.

(** ** A world to run in *)

(** The state after the module is imported: stream 0 is a terminal,
    stream 1 a pipe, stream 2 an object whose [isatty] raises. *)
Definition world0 (env : gmap pystr pystr) : World := {|
  w_STYLES := STYLES;
  environ := env;
  streams := fun i =>
    match i with
    | O => mkStream (Ok true) []
    | 1%nat => mkStream (Ok false) []
    | _ => mkStream (Raise AttributeError) []
    end
|}.

(** ** Vocabulary of the statements *)

(** The five message kinds and the method, style fields and destination
    that belong to each. *)
Inductive Kind := KLog | KOk | KInfo | KWarn | KErr.

Definition emit (k : Kind) : Log -> list pyobj -> M unit :=
  match k with
  | KLog => log | KOk => ok | KInfo => info | KWarn => warn | KErr => err
  end.

Definition label_of (k : Kind) : LogStyle -> pystr :=
  match k with
  | KLog => log_label | KOk => ok_label | KInfo => info_label
  | KWarn => warn_label | KErr => err_label
  end.

Definition icon_of (k : Kind) : LogStyle -> pystr :=
  match k with
  | KLog => log_icon | KOk => ok_icon | KInfo => info_icon
  | KWarn => warn_icon | KErr => err_icon
  end.

Definition color_of (k : Kind) : LogStyle -> pystr :=
  match k with
  | KLog => log_color | KOk => ok_color | KInfo => info_color
  | KWarn => warn_color | KErr => err_color
  end.

Definition dest (k : Kind) (self : Log) : stream_id :=
  match k with
  | KErr => err_stream self
  | _ => out self
  end.

(** The kinds behind the debug gate. *)
Definition gated (k : Kind) : bool :=
  match k with
  | KLog | KInfo => true
  | _ => false
  end.

(** The call [c], run in [w], returns normally and leaves the world as it
    was: nothing written, nothing flushed. *)
Definition silent (c : M unit) (w : World) : Prop := c w = (Ok tt, w).

(** The call [c], run in [w], returns normally after exactly one [write]
    of [text] to stream [sid] followed by one [flush] of it; no other
    stream receives anything and nothing else changes. *)
Definition writes (c : M unit) (sid : stream_id) (text : pystr) (w : World) : Prop :=
  exists w', c w = (Ok tt, w')
    /\ events (streams w' sid) = events (streams w sid) ++ [Write text; Flush]
    /\ (forall i, i <> sid -> events (streams w' i) = events (streams w i))
    /\ (forall i, isatty (streams w' i) = isatty (streams w i))
    /\ w_STYLES w' = w_STYLES w
    /\ environ w' = environ w.

(** Exactly one line: a single write of a text whose only newline is its
    last character. *)
Definition writes_one_line (c : M unit) (sid : stream_id) (w : World) : Prop :=
  exists line, (0x0A ∉ line) /\ writes c sid (line ++ [0x0A]) w.

(** What a call [c] on the parts [msg] does once past the gate: when a
    part cannot be rendered it raises that part's exception and leaves the
    world as it was; otherwise [P] holds of the space-joined renderings. *)
Definition rendered (c : M unit) (msg : list pyobj) (w : World)
    (P : pystr -> Prop) : Prop :=
  match _fmt msg with
  | Ok joined => P joined
  | Raise ex => c w = (Raise ex, w)
  end.

(** The call [c] of kind [k] on stream [sid] raises what a part raises on
    rendering, or writes once a text closed by a newline, which is its
    only newline when the strings of the style for the kind and the
    joined message hold none. *)
Definition one_write (c : M unit) (sid : stream_id) (self : Log) (k : Kind)
    (msg : list pyobj) (w : World) : Prop :=
  rendered c msg w (fun joined =>
    exists body, writes c sid (body ++ [0x0A]) w
      /\ ((0x0A ∉ icon_of k (style self)) ->
          (0x0A ∉ label_of k (style self)) ->
          (0x0A ∉ color_of k (style self)) ->
          (0x0A ∉ joined) -> 0x0A ∉ body)).

(** The world after one write-and-flush on [sid]. *)
Definition wrote (sid : stream_id) (text : pystr) (w : World) : World :=
  upd_stream sid (record Flush) (upd_stream sid (record (Write text)) w).

(** The text a call of kind [k] hands to [write] for the space-joined
    renderings [joined] of its parts, spelled out. *)
Definition prefix_of (self : Log) (k : Kind) : pystr :=
  let icon := icon_of k (style self) in
  let label := strip (label_of k (style self)) in
  if use_icons self && truthy icon then strip (icon ++ lit " " ++ label) else label.

Definition line_of (prefix joined : pystr) : pystr :=
  if truthy prefix then prefix ++ lit " " ++ joined else joined.

Definition colored (self : Log) (k : Kind) : bool :=
  use_color self && truthy (color_of k (style self)).

Definition text_of (self : Log) (k : Kind) (joined : pystr) : pystr :=
  let line := line_of (prefix_of self k) joined in
  if colored self k
  then color_of k (style self) ++ line ++ bcolors.ENDC ++ [0x0A]
  else line ++ [0x0A].

(** The state right after the module is imported. *)
Definition loaded (w : World) : Prop := w_STYLES w = STYLES.

(** What [_is_tty] answers for a stream of the world. *)
Definition interactive (w : World) (sid : stream_id) : bool :=
  match isatty (streams w sid) with
  | Ok b => b
  | Raise _ => false
  end.

(** The environment override of the debug flag. *)
Definition env_debug (w : World) : bool :=
  bool_decide (lower (default [] (environ w !! lit "DEBUG_LOGS"))
               ∈@{gset pystr} {[ lit "1"; lit "true"; lit "yes" ]}).

(** The style a logger ends up with for each form of the [style] argument. *)
Definition resolve (sty : StyleArg) : LogStyle :=
  match sty with
  | StyleStr name => default LogStyle_default (STYLES !! name)
  | StyleObj s => s
  | StyleNone => LogStyle_default
  end.

(** The keys of the dict literal. *)
Definition preset_names : list pystr :=
  [lit "default"; lit "classic"; lit "minimal"; lit "cli"; lit "emoji"; lit "plain"].

Definition labels (s : LogStyle) : list pystr :=
  [log_label s; ok_label s; info_label s; warn_label s; err_label s].

Definition icons (s : LogStyle) : list pystr :=
  [log_icon s; ok_icon s; info_icon s; warn_icon s; err_icon s].

Definition colors (s : LogStyle) : list pystr :=
  [log_color s; ok_color s; info_color s; warn_color s; err_color s].

Definition all_empty (l : list pystr) : bool := forallb (fun x => negb (truthy x)) l.

Definition all_nonempty (l : list pystr) : bool := forallb truthy l.

(** The description of the presets as the design document words it:
    [plain] without icons and colours but with labels, [minimal] and
    [classic] without labels but with icons. *)
Definition presets_as_documented : Prop :=
  (forall name, name ∈ preset_names -> is_Some (STYLES !! name))
  /\ (exists s, STYLES !! lit "plain" = Some s
        /\ all_empty (icons s) = true /\ all_empty (colors s) = true
        /\ all_nonempty (labels s) = true)
  /\ (forall name, name ∈ [lit "minimal"; lit "classic"] ->
        exists s, STYLES !! name = Some s
          /\ all_empty (labels s) = true /\ all_nonempty (icons s) = true).

(** The prefix as the design document words it: icon, space and label,
    trimmed as a whole. *)
Definition prefix_as_documented (use_icons : bool) (icon label : pystr) : pystr :=
  if use_icons && truthy icon then strip (icon ++ lit " " ++ label) else strip label.

(** A Style with the given [warn] icon and label, the rest at its default. *)
Definition style_warn (icon label : pystr) : LogStyle :=
  mkLogStyle (lit "[Log]") (lit "[OK]") (lit "[Info]") label (lit "[Error]")
    (log_icon LogStyle_default) (ok_icon LogStyle_default)
    (info_icon LogStyle_default) icon (err_icon LogStyle_default)
    bcolors.DIM bcolors.OKGREEN bcolors.OKBLUE bcolors.WARNING_ORANGE bcolors.FAIL.

(** The labels of [plain], which it inherits from the field defaults. *)
Definition plain_label (k : Kind) : pystr :=
  match k with
  | KLog => lit "[Log]"
  | KOk => lit "[OK]"
  | KInfo => lit "[Info]"
  | KWarn => lit "[Warn]"
  | KErr => lit "[Error]"
  end.

(** C9 as worded, for one logger, kind and world. *)
Definition bare_prefix_as_stated (self : Log) (k : Kind) (w : World) : Prop :=
  let prefix := _prefix self (icon_of k (style self)) (label_of k (style self)) in
  truthy prefix = true ->
  writes (emit k self []) (dest k self) (prefix ++ lit " " ++ [0x0A]) w.

(** A string without the escape character, which opens every colour code
    and the reset code. *)
Definition esc_free (s : pystr) : Prop := bcolors.ESC ∉ s.

(** Equality of two code points up to the case of an ASCII letter. *)
Definition same_letter (x y : N) : Prop :=
  x = y
  \/ (0x41 <= x <= 0x5A /\ y = x + 32)
  \/ (0x41 <= y <= 0x5A /\ x = y + 32).

(** Equality of two strings, compared case-insensitively. *)
Definition caseless (a b : pystr) : Prop := Forall2 same_letter a b.

(** The values that switch debugging on. *)
Definition truthy_value (v : pystr) : Prop :=
  caseless v (lit "1") \/ caseless v (lit "true") \/ caseless v (lit "yes").

(** ** Vocabulary of the further properties *)

(** A string of white space only (the empty string included). *)
Definition blank (s : pystr) : bool := forallb isspace s.

(** A string that neither starts nor ends with white space. *)
Definition trimmed (s : pystr) : Prop :=
  (forall c, head s = Some c -> isspace c = false)
  /\ (forall c, last s = Some c -> isspace c = false).

(** The fields of [LogStyle] by name, as attribute access reads them. *)
Definition field_table : list (pystr * (LogStyle -> pystr)) :=
  [(lit "log_label", log_label); (lit "ok_label", ok_label);
   (lit "info_label", info_label); (lit "warn_label", warn_label);
   (lit "err_label", err_label);
   (lit "log_icon", log_icon); (lit "ok_icon", ok_icon);
   (lit "info_icon", info_icon); (lit "warn_icon", warn_icon);
   (lit "err_icon", err_icon);
   (lit "log_color", log_color); (lit "ok_color", ok_color);
   (lit "info_color", info_color); (lit "warn_color", warn_color);
   (lit "err_color", err_color)].

(** A computation that leaves the world as it found it, whether it returns
    or raises. *)
Definition readonly {A} (c : M A) : Prop := forall w, snd (c w) = w.

(** A sequence of emission calls on one logger, in program order. *)
Fixpoint emit_all (self : Log) (calls : list (Kind * list pyobj)) : M unit :=
  match calls with
  | [] => mret tt
  | (k, msg) :: rest => emit k self msg;; emit_all self rest
  end.

(** A call that is suppressed by the gate or whose parts all render. *)
Definition completes (self : Log) (call : Kind * list pyobj) : Prop :=
  gated call.1 && negb (debug self) = true \/ exists joined, _fmt call.2 = Ok joined.

(** What one call adds to the record of stream [sid]. *)
Definition trace_of (self : Log) (sid : stream_id) (call : Kind * list pyobj)
    : list Event :=
  let (k, msg) := call in
  if gated k && negb (debug self) then []
  else match _fmt msg with
       | Ok joined =>
           if decide (dest k self = sid) then [Write (text_of self k joined); Flush]
           else []
       | Raise _ => []
       end.

(** The integer 10^4300, by its decimal digits: a one and 4300 zeros. *)
Definition ten_pow_4300 : Z := Z.of_int (Pos (D1 (Nat.iter 4300 D0 Nil))).

(** A world whose [STYLES] has lost its ["default"] entry. *)
Definition world_no_default : World := {|
  w_STYLES := delete (lit "default") STYLES;
  environ := ∅;
  streams := streams (world0 ∅)
|}.

(** ** Basic facts *)

Section Basics.

Example str_int_ex :
  str (PInt 120) = Ok (lit "120") /\ str (PInt (-7)) = Ok (lit "-7")
  /\ str (PInt 0) = Ok (lit "0").
Proof. repeat split; reflexivity. Qed.

Example strip_ex : strip (lit "  a b " ++ [0xA0]) = lit "a b".
Proof. reflexivity. Qed.

Lemma truthy_or_nil (s : pystr) : (if truthy s then s else []) = s.
Proof. by destruct s. Qed.

Lemma wrote_events (sid : stream_id) (text : pystr) (w : World) :
  events (streams (wrote sid text w) sid) = events (streams w sid) ++ [Write text; Flush].
Proof.
  unfold wrote, upd_stream; simpl.
  destruct (decide (sid = sid)) as [_|Hne]; [|congruence].
  simpl. by rewrite <- app_assoc.
Qed.

Lemma wrote_other (sid i : stream_id) (text : pystr) (w : World) :
  i <> sid -> streams (wrote sid text w) i = streams w i.
Proof.
  intros Hne. unfold wrote, upd_stream; simpl.
  destruct (decide (i = sid)); [congruence | reflexivity].
Qed.

Lemma wrote_isatty (sid i : stream_id) (text : pystr) (w : World) :
  isatty (streams (wrote sid text w) i) = isatty (streams w i).
Proof.
  unfold wrote, upd_stream; simpl.
  destruct (decide (i = sid)); reflexivity.
Qed.

Lemma wrote_writes (c : M unit) (sid : stream_id) (text : pystr) (w : World) :
  c w = (Ok tt, wrote sid text w) -> writes c sid text w.
Proof.
  intros Hc. exists (wrote sid text w). split; [exact Hc|].
  split; [apply wrote_events|].
  split; [intros i Hi; by rewrite wrote_other|].
  split; [intros i; apply wrote_isatty|].
  split; reflexivity.
Qed.

(** A call cannot both write and be silent. *)
Lemma silent_not_writes (c : M unit) (sid : stream_id) (text : pystr) (w : World) :
  silent c w -> ~ writes c sid text w.
Proof.
  unfold silent. intros Hs (w' & Hc & Hev & _).
  rewrite Hs in Hc. injection Hc as <-.
  apply (f_equal length) in Hev. rewrite length_app in Hev. simpl in Hev. lia.
Qed.

(** What a call writes is determined. *)
Lemma writes_inj (c : M unit) (sid : stream_id) (t1 t2 : pystr) (w : World) :
  writes c sid t1 w -> writes c sid t2 w -> t1 = t2.
Proof.
  intros (w1 & Hc1 & Hev1 & _) (w2 & Hc2 & Hev2 & _).
  rewrite Hc1 in Hc2. injection Hc2 as <-.
  rewrite Hev1 in Hev2. apply app_inv_head in Hev2. congruence.
Qed.

Lemma _prefix_eq (self : Log) (k : Kind) :
  _prefix self (icon_of k (style self)) (label_of k (style self)) = prefix_of self k.
Proof.
  unfold _prefix, prefix_of.
  destruct (use_icons self && truthy _); [reflexivity | apply truthy_or_nil].
Qed.

(** An integer of 4301 digits is not rendered. *)
Lemma str_ten_pow_4300 : str (PInt ten_pow_4300) = Raise ValueError.
Proof.
  unfold str, str_of_int, ten_pow_4300. rewrite DecimalZ.to_of.
  vm_compute. reflexivity.
Qed.

(** An integer of exactly 4300 digits still is. *)
Lemma str_4300_digits :
  str (PInt (Z.of_int (Pos (D1 (Nat.iter 4299 D0 Nil)))))
  = Ok (0x31 :: repeat 0x30 4299).
Proof.
  unfold str, str_of_int. rewrite DecimalZ.to_of.
  vm_compute. reflexivity.
Qed.

Lemma _fmt_nil : _fmt [] = Ok [].
Proof. reflexivity. Qed.

Lemma _fmt_ten_pow_4300 : _fmt [PInt ten_pow_4300] = Raise ValueError.
Proof.
  unfold _fmt.
  change (render_all [PInt ten_pow_4300])
    with (match str (PInt ten_pow_4300) with
          | Ok s => match render_all [] with
                    | Ok parts => Ok (s :: parts)
                    | Raise e => Raise e
                    end
          | Raise e => Raise e
          end).
  by rewrite str_ten_pow_4300.
Qed.

(** The renderings behind a successful [_fmt]. *)
Lemma _fmt_Ok (msg : list pyobj) (joined : pystr) :
  _fmt msg = Ok joined <->
  exists parts, Forall2 (fun m s => str m = Ok s) msg parts
                /\ joined = join (lit " ") parts.
Proof.
  unfold _fmt.
  assert (Hr : forall parts, render_all msg = Ok parts <->
                             Forall2 (fun m s => str m = Ok s) msg parts).
  { induction msg as [|m rest IH]; intros parts; simpl.
    - split; [intros [= <-]; constructor | by inversion 1].
    - destruct (str m) as [s|ex] eqn:Hs.
      + destruct (render_all rest) as [ps|ex] eqn:Hrest.
        * split.
          -- intros [= <-]. constructor; [done | by apply IH].
          -- inversion 1 as [|? s' ? ps' Hm Hps]; subst.
             apply IH in Hps. congruence.
        * split; [discriminate|].
          inversion 1 as [|? s' ? ps' Hm Hps]; subst.
          apply IH in Hps. discriminate Hps.
      + split; [discriminate|]. inversion 1; congruence. }
  destruct (render_all msg) as [ps|ex].
  - split.
    + intros [= <-]. exists ps. split; [by apply Hr | reflexivity].
    + intros (parts & Hp & ->). apply Hr in Hp. congruence.
  - split; [discriminate|]. intros (parts & Hp & _). apply Hr in Hp. discriminate Hp.
Qed.

Lemma _write_eq (self : Log) (k : Kind) (sid : stream_id) (msg : list pyobj) (w : World) :
  _write self sid (prefix_of self k) (color_of k (style self)) msg w
  = match _fmt msg with
    | Ok joined => (Ok tt, wrote sid (text_of self k joined) w)
    | Raise ex => (Raise ex, w)
    end.
Proof.
  unfold _write, lift, mbind, M_bind.
  destruct (_fmt msg) as [joined|ex]; [|reflexivity].
  unfold text_of, colored, line_of, wrote.
  destruct (use_color self && truthy _); reflexivity.
Qed.

(** Every emission method, in one equation. *)
Lemma emit_eq (k : Kind) (self : Log) (msg : list pyobj) (w : World) :
  emit k self msg w =
  if gated k && negb (debug self) then (Ok tt, w)
  else match _fmt msg with
       | Ok joined => (Ok tt, wrote (dest k self) (text_of self k joined) w)
       | Raise ex => (Raise ex, w)
       end.
Proof.
  pose proof (_prefix_eq self k) as Hp.
  pose proof (_write_eq self k (dest k self) msg w) as Hw.
  destruct k; simpl in *; unfold log, ok, info, warn, err;
    try (destruct (debug self); simpl; [|reflexivity]);
    rewrite Hp; exact Hw.
Qed.

Lemma emit_silent (k : Kind) (self : Log) (msg : list pyobj) (w : World) :
  gated k = true -> debug self = false -> silent (emit k self msg) w.
Proof. intros Hg Hd. unfold silent. by rewrite emit_eq, Hg, Hd. Qed.

Lemma emit_raises (k : Kind) (self : Log) (msg : list pyobj) (w : World) (ex : exn) :
  gated k && negb (debug self) = false ->
  _fmt msg = Raise ex ->
  emit k self msg w = (Raise ex, w).
Proof. intros Hg Hf. by rewrite emit_eq, Hg, Hf. Qed.

Lemma emit_writes (k : Kind) (self : Log) (msg : list pyobj) (w : World)
    (joined : pystr) :
  gated k && negb (debug self) = false ->
  _fmt msg = Ok joined ->
  writes (emit k self msg) (dest k self) (text_of self k joined) w.
Proof. intros Hg Hf. apply wrote_writes. by rewrite emit_eq, Hg, Hf. Qed.

Lemma emit_writes_text (k : Kind) (self : Log) (msg : list pyobj) (w : World)
    (joined text : pystr) :
  gated k && negb (debug self) = false ->
  _fmt msg = Ok joined ->
  text_of self k joined = text ->
  writes (emit k self msg) (dest k self) text w.
Proof. intros Hg Hf <-. by apply emit_writes. Qed.

(** A call past the gate, in the vocabulary of the statements. *)
Lemma emit_rendered (k : Kind) (self : Log) (msg : list pyobj) (w : World) :
  gated k && negb (debug self) = false ->
  rendered (emit k self msg) msg w (fun joined =>
    writes (emit k self msg) (dest k self) (text_of self k joined) w).
Proof.
  intros Hg. unfold rendered. destruct (_fmt msg) as [joined|ex] eqn:Hf.
  - by apply emit_writes.
  - by apply emit_raises.
Qed.

Lemma rendered_impl (c : M unit) (msg : list pyobj) (w : World) (P Q : pystr -> Prop) :
  (forall joined, _fmt msg = Ok joined -> P joined -> Q joined) ->
  rendered c msg w P -> rendered c msg w Q.
Proof.
  unfold rendered. intros HPQ. destruct (_fmt msg) as [joined|ex]; [|done].
  by apply HPQ.
Qed.

(** Membership passes through trimming and joining. *)
Lemma lstrip_elem (x : N) (s : pystr) : x ∈ lstrip s -> x ∈ s.
Proof.
  induction s as [|c s IH]; simpl; [done|].
  destruct (isspace c); [|done].
  intros Hx. right. by apply IH.
Qed.

Lemma rstrip_elem (x : N) (s : pystr) : x ∈ rstrip s -> x ∈ s.
Proof.
  unfold rstrip. rewrite !list_elem_of_In, <- in_rev, <- !list_elem_of_In.
  intros Hx. apply lstrip_elem in Hx.
  by rewrite list_elem_of_In, <- in_rev, <- list_elem_of_In in Hx.
Qed.

Lemma strip_elem (x : N) (s : pystr) : x ∈ strip s -> x ∈ s.
Proof. unfold strip. intros Hx. by apply lstrip_elem, rstrip_elem. Qed.

Lemma join_elem (x : N) (sep : pystr) (parts : list pystr) :
  x ∈ join sep parts -> x ∈ sep \/ exists p, p ∈ parts /\ x ∈ p.
Proof.
  induction parts as [|p rest IH]; simpl; [by rewrite elem_of_nil|].
  destruct rest as [|q rest].
  - intros Hx. right. exists p. split; [left|done].
  - rewrite !elem_of_app. intros [Hx|[Hx|Hx]].
    + right. exists p. split; [left|done].
    + by left.
    + destruct (IH Hx) as [Hs|(r & Hr & Hxr)]; [by left|].
      right. exists r. split; [by right|done].
Qed.

(** A character other than the space that is in neither the prefix nor
    the joined message is not in the line. *)
Lemma line_of_avoids (x : N) (prefix joined : pystr) :
  x <> 0x20 -> x ∉ prefix -> x ∉ joined -> x ∉ line_of prefix joined.
Proof.
  intros Hx Hp Hj.
  assert (Hs : x ∉ lit " ").
  { rewrite list_elem_of_In. intros [H|[]]. by apply Hx. }
  unfold line_of. destruct (truthy prefix); [|done].
  by rewrite !not_elem_of_app.
Qed.

Lemma prefix_of_avoids (x : N) (self : Log) (k : Kind) :
  x <> 0x20 -> x ∉ icon_of k (style self) -> x ∉ label_of k (style self) ->
  x ∉ prefix_of self k.
Proof.
  intros Hx Hi Hl.
  assert (Hs : x ∉ lit " ").
  { rewrite list_elem_of_In. intros [H|[]]. by apply Hx. }
  unfold prefix_of. destruct (use_icons self && truthy _).
  - intros Hin. apply strip_elem in Hin.
    rewrite !elem_of_app in Hin. destruct Hin as [Hin|[Hin|Hin]]; [done|done|].
    by apply Hl, strip_elem.
  - intros Hin. by apply Hl, strip_elem.
Qed.

(** The written text ends in a newline, its only one when the strings of
    the style and the joined message have none. *)
Lemma text_of_newline (self : Log) (k : Kind) (joined : pystr) :
  exists body, text_of self k joined = body ++ [0x0A]
    /\ ((0x0A ∉ icon_of k (style self)) -> (0x0A ∉ label_of k (style self)) ->
        (0x0A ∉ color_of k (style self)) -> (0x0A ∉ joined) -> 0x0A ∉ body).
Proof.
  assert (He : 0x0A ∉ bcolors.ENDC).
  { rewrite list_elem_of_In. simpl.
    intros H. repeat (destruct H as [H|H]; [discriminate H|]). destruct H. }
  assert (Hline : (0x0A ∉ icon_of k (style self)) -> (0x0A ∉ label_of k (style self)) ->
                  (0x0A ∉ joined) -> 0x0A ∉ line_of (prefix_of self k) joined).
  { intros Hi Hl Hj. apply line_of_avoids; [discriminate| |done].
    by apply prefix_of_avoids. }
  unfold text_of. destruct (colored self k).
  - exists (color_of k (style self) ++ line_of (prefix_of self k) joined ++ bcolors.ENDC).
    split; [by rewrite <- !app_assoc|].
    intros Hi Hl Hc Hj. rewrite !not_elem_of_app. auto.
  - exists (line_of (prefix_of self k) joined). split; [reflexivity|]. auto.
Qed.

End Basics.

(** ** The debug gate *)

Section Gate.

(** C1, as worded, fails: a part that holds a newline makes [ok] write
    two lines in its one write, and a part that cannot be rendered (an
    integer of more than 4300 digits) makes it raise and write nothing. *)
Lemma ok_two_lines_or_raises :
  let self := mkLog false style_plain false false 0 1 in
  let part := PStr (lit "a" ++ [0x0A] ++ lit "b") in
  writes (ok self [part]) 0%nat
    (lit "[OK] a" ++ [0x0A] ++ lit "b" ++ [0x0A]) (world0 ∅)
  /\ ~ writes_one_line (ok self [part]) 0%nat (world0 ∅)
  /\ ok self [PInt ten_pow_4300] (world0 ∅) = (Raise ValueError, world0 ∅)
  /\ ~ writes_one_line (ok self [PInt ten_pow_4300]) 0%nat (world0 ∅).
Proof.
  intros self part.
  assert (Hw : writes (ok self [part]) 0%nat
                 ((lit "[OK] a" ++ [0x0A] ++ lit "b") ++ [0x0A]) (world0 ∅)).
  { exact (emit_writes_text KOk self [part] (world0 ∅) _ _ eq_refl eq_refl eq_refl). }
  assert (Hr : ok self [PInt ten_pow_4300] (world0 ∅) = (Raise ValueError, world0 ∅)).
  { unfold ok, _write, lift, mbind, M_bind.
    rewrite _fmt_ten_pow_4300. reflexivity. }
  split; [exact Hw|]. split; [|split; [exact Hr|]].
  - intros (line & Hn & Hl).
    pose proof (writes_inj _ _ _ _ _ Hl Hw) as Heq.
    apply app_inj_tail in Heq as [-> _].
    apply Hn. rewrite list_elem_of_In. simpl. tauto.
  - intros (line & _ & (w' & Hc & _)). rewrite Hr in Hc. discriminate Hc.
Qed.

(** C1 (amended).  With [debug] false, [log] and [info] return normally
    without touching any stream.  [ok], [warn] and [err], and with [debug]
    true [log] and [info] too, either raise the exception of a part that
    cannot be rendered and write nothing, or perform exactly one write,
    followed by one flush, of a text closed by a newline ([err] on the err
    stream, the others on the out stream); that text is one line, its only
    newline the last character, when the icon, label and colour of the
    kind and the joined message hold no newline. *)
Theorem gate_then_one_write (self : Log) (msg : list pyobj) (w : World) :
  (if debug self
   then one_write (log self msg) (out self) self KLog msg w
        /\ one_write (info self msg) (out self) self KInfo msg w
   else silent (log self msg) w /\ silent (info self msg) w)
  /\ one_write (ok self msg) (out self) self KOk msg w
  /\ one_write (warn self msg) (out self) self KWarn msg w
  /\ one_write (err self msg) (err_stream self) self KErr msg w.
Proof.
  assert (Hone : forall k, gated k && negb (debug self) = false ->
            one_write (emit k self msg) (dest k self) self k msg w).
  { intros k Hk. unfold one_write.
    apply (rendered_impl _ _ _ _ _ (fun joined _ H => H)).
    unfold rendered. destruct (_fmt msg) as [joined|ex] eqn:Hf.
    - destruct (text_of_newline self k joined) as (body & Hb & Hn).
      exists body. split; [|exact Hn]. rewrite <- Hb. by apply emit_writes.
    - by apply emit_raises. }
  split; [|split; [|split]].
  - destruct (debug self) eqn:Hd.
    + split; [apply (Hone KLog) | apply (Hone KInfo)]; reflexivity.
    + split; [apply (emit_silent KLog) | apply (emit_silent KInfo)]; done.
  - apply (Hone KOk). reflexivity.
  - apply (Hone KWarn). reflexivity.
  - apply (Hone KErr). reflexivity.
Qed.

End Gate.

(** ** Construction *)

Section Construction.

Lemma STYLES_default : getitem STYLES (lit "default") = Ok LogStyle_default.
Proof. reflexivity. Qed.

Lemma get_style_plain_call (name : pystr) (w : World) :
  loaded w ->
  get_style name ∅ w = (Ok (default LogStyle_default (STYLES !! name)), w).
Proof.
  unfold loaded. intros Hw. unfold get_style.
  destruct (decide (is_Some _)) as [[x Hx]|_]; [by rewrite lookup_empty in Hx|].
  unfold read_STYLES, lift, mbind, M_bind, mret, M_ret.
  rewrite Hw, STYLES_default.
  destruct (decide (∅ = ∅)) as [_|Hne]; [reflexivity | congruence].
Qed.

Lemma _is_tty_eq (sid : stream_id) (w : World) :
  _is_tty sid w = (Ok (interactive w sid), w).
Proof.
  unfold _is_tty, try_except, stream_isatty, interactive.
  destruct (isatty (streams w sid)); reflexivity.
Qed.

(** The constructor never raises and leaves the world alone. *)
Lemma init_eq (d v c i : bool) (sty : StyleArg) (o e : stream_id) (w : World) :
  loaded w ->
  __init__ d v c i sty o e w =
  (Ok {| debug := d || env_debug w;
         style := resolve sty;
         use_color := c && interactive w o;
         use_icons := i && interactive w o;
         out := o;
         err_stream := e |}, w).
Proof.
  intros Hw.
  assert (Hs : (match sty with
                | StyleStr name => get_style name ∅
                | StyleObj s => mret s
                | StyleNone => tbl ← read_STYLES; lift (getitem tbl (lit "default"))
                end) w = (Ok (resolve sty), w)).
  { destruct sty as [name|s|]; simpl.
    - by apply get_style_plain_call.
    - reflexivity.
    - unfold read_STYLES, lift, mbind, M_bind. red in Hw. by rewrite Hw, STYLES_default. }
  assert (Hd : (if d then mret true else
                  v ← getenv (lit "DEBUG_LOGS") [];
                  mret (bool_decide (lower v ∈@{gset pystr}
                                       {[ lit "1"; lit "true"; lit "yes" ]}))) w
               = (Ok (d || env_debug w), w)).
  { destruct d; reflexivity. }
  assert (Ht : forall b : bool, (if b then _is_tty o else mret false) w
                                = (Ok (b && interactive w o), w)).
  { intros [|]; [apply _is_tty_eq | reflexivity]. }
  unfold __init__.
  unfold mbind at 1, M_bind at 1. rewrite Hd.
  unfold mbind at 1, M_bind at 1. rewrite Hs.
  unfold mbind at 1, M_bind at 1. rewrite Ht.
  unfold mbind at 1, M_bind at 1. rewrite Ht.
  reflexivity.
Qed.

End Construction.

(** ** Style resolution *)

Section Resolution.

Lemma STYLES_unregistered (name : pystr) :
  name ∉ preset_names -> STYLES !! name = None.
Proof.
  intros Hn. unfold STYLES.
  rewrite !lookup_insert_ne; [apply lookup_empty | ..];
    intros <-; apply Hn; unfold preset_names; set_solver.
Qed.

Lemma STYLES_registered (name : pystr) :
  name ∈ preset_names -> is_Some (STYLES !! name).
Proof.
  unfold preset_names. rewrite !elem_of_cons, elem_of_nil.
  intros [->|[->|[->|[->|[->|[->|[]]]]]]]; vm_compute; eauto.
Qed.

(** C3.  Once the module is loaded, resolving a style by name returns
    normally for every string: a registered name gives the Style the table
    holds for it (each of the six presets its own definition), any other
    name gives the Style registered under ["default"]; a logger built
    without a style gets the ["default"] preset, one built with a Style
    value keeps that value, and one built with a name gets what the
    lookup by name returns. *)
Theorem resolve_by_name_total (w : World) (name : pystr) (Hw : loaded w) :
  (exists s, get_style name ∅ w = (Ok s, w)
     /\ (forall p, STYLES !! name = Some p -> s = p)
     /\ (STYLES !! name = None -> STYLES !! lit "default" = Some s))
  /\ (get_style (lit "default") ∅ w = (Ok LogStyle_default, w)
      /\ get_style (lit "classic") ∅ w = (Ok style_classic, w)
      /\ get_style (lit "minimal") ∅ w = (Ok style_minimal, w)
      /\ get_style (lit "cli") ∅ w = (Ok style_cli, w)
      /\ get_style (lit "emoji") ∅ w = (Ok style_emoji, w)
      /\ get_style (lit "plain") ∅ w = (Ok style_plain, w))
  /\ (name ∉ preset_names -> get_style name ∅ w = (Ok LogStyle_default, w))
  /\ (forall (d v c i : bool) (o e : stream_id),
        (exists lg, __init__ d v c i (StyleStr name) o e w = (Ok lg, w)
           /\ get_style name ∅ w = (Ok (style lg), w))
        /\ (exists lg, __init__ d v c i StyleNone o e w = (Ok lg, w)
              /\ STYLES !! lit "default" = Some (style lg))
        /\ (forall s, exists lg, __init__ d v c i (StyleObj s) o e w = (Ok lg, w)
              /\ style lg = s)).
Proof.
  split; [|split; [|split]].
  - eexists. split; [by apply get_style_plain_call|]. split.
    + intros p Hp. by rewrite Hp.
    + intros Hn. by rewrite Hn.
  - repeat split; by rewrite get_style_plain_call.
  - intros Hn. rewrite get_style_plain_call by done.
    by rewrite STYLES_unregistered.
  - intros d v c i o e. split; [|split; [|intros s]];
      (eexists; split; [by apply init_eq|]); simpl.
    + by apply get_style_plain_call.
    + reflexivity.
    + reflexivity.
Qed.

Lemma resolve_by_name_total_witness :
  loaded (world0 ∅)
  /\ get_style (lit "nonesuch") ∅ (world0 ∅) = (Ok LogStyle_default, world0 ∅).
Proof.
  split; [reflexivity|].
  apply (resolve_by_name_total (world0 ∅) (lit "nonesuch")); [reflexivity|].
  unfold preset_names. rewrite !not_elem_of_cons. repeat split; try discriminate.
  apply not_elem_of_nil.
Defined.

(** C4.  Resolving ["minimal"] with the one override [err_label="BOOM"]
    returns a Style whose [err_label] is ["BOOM"] and whose fourteen other
    fields are those of the registered ["minimal"] preset; the call leaves
    the world, hence the table and its ["minimal"] entry, as they were. *)
Theorem override_leaves_preset (w : World) (Hw : loaded w) :
  exists s w',
    get_style (lit "minimal") {[ lit "err_label" := lit "BOOM" ]} w = (Ok s, w')
    /\ err_label s = lit "BOOM"
    /\ (log_label s = log_label style_minimal
        /\ ok_label s = ok_label style_minimal
        /\ info_label s = info_label style_minimal
        /\ warn_label s = warn_label style_minimal)
    /\ (log_icon s = log_icon style_minimal
        /\ ok_icon s = ok_icon style_minimal
        /\ info_icon s = info_icon style_minimal
        /\ warn_icon s = warn_icon style_minimal
        /\ err_icon s = err_icon style_minimal)
    /\ (log_color s = log_color style_minimal
        /\ ok_color s = ok_color style_minimal
        /\ info_color s = info_color style_minimal
        /\ warn_color s = warn_color style_minimal
        /\ err_color s = err_color style_minimal)
    /\ w' = w
    /\ w_STYLES w' !! lit "minimal" = Some style_minimal
    /\ err_label style_minimal = []
    /\ get_style (lit "minimal") ∅ w' = (Ok style_minimal, w').
Proof.
  set (s := {| log_label := []; ok_label := []; info_label := [];
               warn_label := []; err_label := lit "BOOM";
               log_icon := log_icon style_minimal;
               ok_icon := ok_icon style_minimal;
               info_icon := info_icon style_minimal;
               warn_icon := warn_icon style_minimal;
               err_icon := err_icon style_minimal;
               log_color := log_color style_minimal;
               ok_color := ok_color style_minimal;
               info_color := info_color style_minimal;
               warn_color := warn_color style_minimal;
               err_color := err_color style_minimal |}).
  assert (Hr : replace style_minimal {[ lit "err_label" := lit "BOOM" ]} = Ok s)
    by (vm_compute; reflexivity).
  assert (Hb : default LogStyle_default (STYLES !! lit "minimal") = style_minimal)
    by reflexivity.
  exists s, w. split.
  - unfold get_style.
    destruct (decide (is_Some _)) as [[x Hx]|_].
    { apply lookup_singleton_Some in Hx as [Hx _]. discriminate Hx. }
    unfold read_STYLES, lift, mbind, M_bind, mret, M_ret.
    red in Hw. rewrite Hw, STYLES_default.
    destruct (decide (_ = ∅)) as [He|_].
    + exfalso. exact (map_non_empty_singleton _ _ He).
    + by rewrite Hb, Hr.
  - repeat split; try reflexivity.
    + red in Hw. by rewrite Hw.
    + by rewrite get_style_plain_call.
Qed.

Lemma override_leaves_preset_witness :
  loaded (world0 ∅)
  /\ exists s, fst (get_style (lit "minimal") {[ lit "err_label" := lit "BOOM" ]} (world0 ∅)) = Ok s
       /\ err_label s = lit "BOOM".
Proof.
  split; [reflexivity|].
  destruct (override_leaves_preset (world0 ∅) eq_refl) as (s & w' & Hg & He & _).
  exists s. rewrite Hg. split; [reflexivity | exact He].
Defined.

End Resolution.

(** ** The preset table *)

Section Presets.

(** C5, as worded, fails on ["classic"]: that preset has the five labels
    [[LOG]], [[OK]], [[INFO]], [[WARN]], [[ERR]] and no icons. *)
Lemma classic_has_labels_not_icons :
  STYLES !! lit "classic" = Some style_classic
  /\ all_empty (labels style_classic) = false
  /\ all_nonempty (icons style_classic) = false
  /\ ~ presets_as_documented.
Proof.
  split; [reflexivity|]. split; [reflexivity|]. split; [reflexivity|].
  intros (_ & _ & Hmc).
  destruct (Hmc (lit "classic")) as (s & Hs & He & _); [set_solver|].
  assert (Hc : STYLES !! lit "classic" = Some style_classic) by reflexivity.
  assert (s = style_classic) as -> by congruence.
  discriminate He.
Qed.

(** C5 (amended).  The table holds exactly the six presets [default],
    [classic], [minimal], [cli], [emoji], [plain], each a full Style;
    [plain] has its five icons and five colours empty and its five labels
    non-empty, [minimal] has its five labels empty and its five icons
    non-empty, and [classic] has its five icons empty and its five labels
    non-empty. *)
Theorem presets_table :
  (forall name, is_Some (STYLES !! name) <-> name ∈ preset_names)
  /\ (STYLES !! lit "default" = Some LogStyle_default
      /\ STYLES !! lit "classic" = Some style_classic
      /\ STYLES !! lit "minimal" = Some style_minimal
      /\ STYLES !! lit "cli" = Some style_cli
      /\ STYLES !! lit "emoji" = Some style_emoji
      /\ STYLES !! lit "plain" = Some style_plain)
  /\ (all_empty (icons style_plain) = true
      /\ all_empty (colors style_plain) = true
      /\ all_nonempty (labels style_plain) = true)
  /\ (all_empty (labels style_minimal) = true
      /\ all_nonempty (icons style_minimal) = true)
  /\ (all_empty (icons style_classic) = true
      /\ all_nonempty (labels style_classic) = true).
Proof.
  split.
  - intros name. split; [|apply STYLES_registered].
    intros [s Hs]. destruct (decide (name ∈ preset_names)) as [|Hn]; [done|].
    apply STYLES_unregistered in Hn. congruence.
  - repeat split; reflexivity.
Qed.

End Presets.

(** ** Prefix and line *)

Section Lines.

(** C2, as worded, fails on a label that starts with white space: the code
    trims the label before it puts the icon in front, so the space after
    the icon stays single, where trimming the whole would keep the
    label's own leading blanks. *)
Lemma label_trimmed_before_icon :
  let self := mkLog false (style_warn (lit "!") (lit " [warn]")) false true 0 1 in
  let msg := [PStr (lit "disk"); PStr (lit "full")] in
  _fmt msg = Ok (lit "disk full")
  /\ writes (warn self msg) 0%nat (lit "! [warn] disk full" ++ [0x0A]) (world0 ∅)
  /\ line_of (prefix_as_documented true (lit "!") (lit " [warn]")) (lit "disk full")
     = lit "!  [warn] disk full"
  /\ ~ writes (warn self msg) 0%nat
         (line_of (prefix_as_documented (use_icons self) (warn_icon (style self))
                     (warn_label (style self))) (lit "disk full") ++ [0x0A])
         (world0 ∅).
Proof.
  intros self msg.
  assert (Hw : writes (warn self msg) 0%nat (lit "! [warn] disk full" ++ [0x0A]) (world0 ∅)).
  { exact (emit_writes_text KWarn self msg (world0 ∅) _ _ eq_refl eq_refl eq_refl). }
  split; [reflexivity|]. split; [exact Hw|]. split; [reflexivity|].
  intros Hc. pose proof (writes_inj _ _ _ _ _ Hw Hc) as Heq.
  vm_compute in Heq. discriminate Heq.
Qed.

(** C2 (amended).  The prefix is the trimmed label, or, when icons are in
    use and the icon is non-empty, the icon, one space and the trimmed
    label, trimmed again.  When every part renders, the message is the
    renderings joined by single spaces; a non-empty prefix is joined to it
    by one space, an empty one leaves the message alone; a call that
    passes the gate writes that line, wrapped in the colour and the reset
    code when colours are in use and the colour is non-empty, and a
    newline.  When a part does not render the call raises and writes
    nothing.  With icon ["!"] and label ["[warn]"], [warn("disk", "full")]
    gives ["! [warn] disk full"] with icons and ["[warn] disk full"]
    without. *)
Theorem prefix_then_message (self : Log) (k : Kind) (msg : list pyobj) (w : World) :
  let icon := icon_of k (style self) in
  let label := label_of k (style self) in
  let color := color_of k (style self) in
  let prefix :=
    if use_icons self && truthy icon then strip (icon ++ lit " " ++ strip label)
    else strip label in
  _prefix self icon label = prefix
  /\ (forall parts, Forall2 (fun m s => str m = Ok s) msg parts ->
        _fmt msg = Ok (join (lit " ") parts))
  /\ (if gated k && negb (debug self) then silent (emit k self msg) w
      else rendered (emit k self msg) msg w (fun joined =>
             let line := if truthy prefix then prefix ++ lit " " ++ joined
                         else joined in
             writes (emit k self msg) (dest k self)
               (if use_color self && truthy color
                then color ++ line ++ bcolors.ENDC ++ [0x0A]
                else line ++ [0x0A]) w))
  /\ (forall d c o e,
        writes (warn (mkLog d (style_warn (lit "!") (lit "[warn]")) false true o e)
                  [PStr (lit "disk"); PStr (lit "full")])
          o (lit "! [warn] disk full" ++ [0x0A]) w
        /\ writes (warn (mkLog d (style_warn (lit "!") (lit "[warn]")) false false o e)
                     [PStr (lit "disk"); PStr (lit "full")])
             o (lit "[warn] disk full" ++ [0x0A]) w
        /\ writes (warn (mkLog d (style_warn (lit "!") (lit "[warn]")) true c o e)
                     [PStr (lit "disk"); PStr (lit "full")])
             o (bcolors.WARNING_ORANGE
                ++ (if c then lit "! [warn] disk full" else lit "[warn] disk full")
                ++ bcolors.ENDC ++ [0x0A]) w).
Proof.
  intros icon label color prefix.
  split; [apply (_prefix_eq self k)|]. split; [|split].
  - intros parts Hp. apply _fmt_Ok. by exists parts.
  - destruct (gated k && negb (debug self)) eqn:Hg.
    + unfold silent. by rewrite emit_eq, Hg.
    + by apply emit_rendered.
  - intros d c o e. split; [|split].
    + exact (emit_writes_text KWarn (mkLog d _ false true o e)
               [PStr (lit "disk"); PStr (lit "full")] w (lit "disk full") _
               eq_refl eq_refl eq_refl).
    + exact (emit_writes_text KWarn (mkLog d _ false false o e)
               [PStr (lit "disk"); PStr (lit "full")] w (lit "disk full") _
               eq_refl eq_refl eq_refl).
    + destruct c.
      * exact (emit_writes_text KWarn (mkLog d _ true true o e)
               [PStr (lit "disk"); PStr (lit "full")] w (lit "disk full") _
               eq_refl eq_refl eq_refl).
      * exact (emit_writes_text KWarn (mkLog d _ true false o e)
               [PStr (lit "disk"); PStr (lit "full")] w (lit "disk full") _
               eq_refl eq_refl eq_refl).
Qed.

End Lines.

(** ** The plain preset *)

Section Plain.

(** C6, as worded, fails: [plain] clears icons and colours only, so its
    lines still begin with the label. *)
Lemma plain_keeps_label :
  let self := mkLog false style_plain true true 0 1 in
  _fmt [PStr (lit "hi")] = Ok (lit "hi")
  /\ writes (ok self [PStr (lit "hi")]) 0%nat (lit "[OK] hi" ++ [0x0A]) (world0 ∅)
  /\ ~ writes (ok self [PStr (lit "hi")]) 0%nat (lit "hi" ++ [0x0A]) (world0 ∅).
Proof.
  intros self.
  assert (Hw : writes (ok self [PStr (lit "hi")]) 0%nat (lit "[OK] hi" ++ [0x0A]) (world0 ∅)).
  { exact (emit_writes_text KOk self [PStr (lit "hi")] (world0 ∅) (lit "hi") _
             eq_refl eq_refl eq_refl). }
  split; [reflexivity|]. split; [exact Hw|].
  intros Hc. pose proof (writes_inj _ _ _ _ _ Hw Hc) as Heq.
  vm_compute in Heq. discriminate Heq.
Qed.

(** C6 (amended).  A logger on the [plain] preset writes, for every call
    that passes the gate and whose parts all render, the label of the
    kind, one space, the space-joined message and a newline: no icon, no
    colour code and no reset code, whatever [use_color] and [use_icons]
    are; when a part does not render the call raises and writes nothing. *)
Theorem plain_label_message (d c i : bool) (o e : stream_id) (k : Kind)
    (msg : list pyobj) (w : World) :
  let self := mkLog d style_plain c i o e in
  if gated k && negb d then silent (emit k self msg) w
  else rendered (emit k self msg) msg w (fun joined =>
         writes (emit k self msg) (dest k self)
           (plain_label k ++ lit " " ++ joined ++ [0x0A]) w).
Proof.
  intros self.
  destruct (gated k && negb d) eqn:Hg.
  - unfold silent. rewrite emit_eq. simpl. by rewrite Hg.
  - unfold rendered. destruct (_fmt msg) as [joined|ex] eqn:Hf.
    + apply (emit_writes_text k self msg w joined); [exact Hg | exact Hf |].
      unfold text_of, colored, prefix_of, line_of.
      destruct k; simpl; rewrite !andb_false_r; reflexivity.
    + by apply emit_raises.
Qed.

End Plain.

(** ** A call without message parts *)

Section NoParts.

(** C9, as worded, fails twice: a gated kind writes nothing while [debug]
    is off, and with colours in use the reset code stands between the
    trailing space and the newline. *)
Lemma bare_prefix_gated_or_colored :
  ~ bare_prefix_as_stated (mkLog false LogStyle_default false false 0 1) KLog (world0 ∅)
  /\ writes (ok (mkLog false LogStyle_default true false 0 1) []) 0%nat
       (bcolors.OKGREEN ++ lit "[OK] " ++ bcolors.ENDC ++ [0x0A]) (world0 ∅)
  /\ ~ bare_prefix_as_stated (mkLog false LogStyle_default true false 0 1) KOk (world0 ∅).
Proof.
  split; [|split].
  - intros Hc.
    eapply silent_not_writes; [|exact (Hc eq_refl)].
    exact (emit_silent KLog (mkLog false LogStyle_default false false 0 1) []
             (world0 ∅) eq_refl eq_refl).
  - exact (emit_writes_text KOk (mkLog false LogStyle_default true false 0 1) []
             (world0 ∅) [] _ eq_refl eq_refl eq_refl).
  - intros Hc. specialize (Hc eq_refl).
    pose proof (emit_writes_text KOk (mkLog false LogStyle_default true false 0 1) []
                  (world0 ∅) [] _ eq_refl eq_refl eq_refl) as Hw.
    pose proof (writes_inj _ _ _ _ _ Hw Hc) as Heq.
    vm_compute in Heq. discriminate Heq.
Qed.

(** C9 (amended).  When the prefix of a kind is non-empty, a call of that
    kind without message parts builds the line "prefix, one space"; if the
    call passes the gate it writes that line and a newline, with the
    colour code before the line and the reset code between the trailing
    space and the newline when colours are in use and the colour is
    non-empty. *)
Theorem bare_prefix_trailing_space (self : Log) (k : Kind) (w : World) :
  let prefix := _prefix self (icon_of k (style self)) (label_of k (style self)) in
  let color := color_of k (style self) in
  truthy prefix = true ->
  line_of prefix [] = prefix ++ lit " "
  /\ (if gated k && negb (debug self) then silent (emit k self []) w
      else writes (emit k self []) (dest k self)
             (if use_color self && truthy color
              then color ++ (prefix ++ lit " ") ++ bcolors.ENDC ++ [0x0A]
              else (prefix ++ lit " ") ++ [0x0A]) w).
Proof.
  intros prefix color Hp.
  assert (Hl : line_of prefix [] = prefix ++ lit " ").
  { unfold line_of. rewrite Hp. reflexivity. }
  split; [exact Hl|].
  destruct (gated k && negb (debug self)) eqn:Hg.
  - unfold silent. by rewrite emit_eq, Hg.
  - apply (emit_writes_text k self [] w []); [exact Hg | apply _fmt_nil |].
    unfold text_of, colored. fold color.
    replace (prefix_of self k) with prefix by apply _prefix_eq.
    by rewrite Hl.
Qed.

Lemma bare_prefix_trailing_space_witness :
  truthy (_prefix (mkLog false style_cli false false 0 1) (warn_icon style_cli)
            (warn_label style_cli)) = true
  /\ writes (warn (mkLog false style_cli false false 0 1) []) 0%nat
       (lit "[warn] " ++ [0x0A]) (world0 ∅).
Proof.
  split; [reflexivity|].
  exact (proj2 (bare_prefix_trailing_space (mkLog false style_cli false false 0 1)
                  KWarn (world0 ∅) eq_refl)).
Defined.

End NoParts.

(** ** Streams that are not terminals *)

Section NonInteractive.

Lemma line_of_esc_free (label joined : pystr) :
  esc_free label -> esc_free joined ->
  esc_free (line_of (strip label) joined ++ [0x0A]).
Proof.
  unfold esc_free. intros Hl Hj.
  assert (Hn : bcolors.ESC ∉ [0x0A]).
  { rewrite list_elem_of_In. intros [H|[]]. discriminate H. }
  rewrite not_elem_of_app. split; [|exact Hn].
  apply line_of_avoids; [discriminate| |exact Hj].
  intros Hx. by apply Hl, strip_elem.
Qed.

(** C7.  When the [isatty()] of the out stream returns false or raises,
    [_is_tty] answers false without raising, and the constructor, whatever
    [use_color] and [use_icons] ask for, returns a logger with both flags
    false.  Every later call of that logger that passes the gate either
    raises on a part that does not render, writing nothing, or writes the
    trimmed label, a space and the message (or the message alone under an
    empty label) and a newline, with no colour code before and no reset
    code after; so if the label and the message hold no escape character,
    neither does anything written. *)
Theorem not_a_tty_no_color (w : World) (d v c i : bool) (sty : StyleArg)
    (o e : stream_id) (Hw : loaded w) (Hn : isatty (streams w o) <> Ok true) :
  _is_tty o w = (Ok false, w)
  /\ exists lg, __init__ d v c i sty o e w = (Ok lg, w)
       /\ use_color lg = false
       /\ use_icons lg = false
       /\ forall (k : Kind) (msg : list pyobj) (w1 : World),
            if gated k && negb (debug lg) then silent (emit k lg msg) w1
            else rendered (emit k lg msg) msg w1 (fun joined =>
                   let line := line_of (strip (label_of k (style lg))) joined in
                   writes (emit k lg msg) (dest k lg) (line ++ [0x0A]) w1
                   /\ (esc_free (label_of k (style lg)) -> esc_free joined ->
                       esc_free (line ++ [0x0A]))).
Proof.
  assert (Hi : interactive w o = false).
  { unfold interactive. destruct (isatty (streams w o)) as [[|]|]; congruence. }
  split; [by rewrite _is_tty_eq, Hi|].
  eexists. split; [by apply init_eq|].
  rewrite Hi, !andb_false_r.
  set (lg := mkLog _ _ false false o e).
  split; [reflexivity|]. split; [reflexivity|].
  intros k msg w1.
  destruct (gated k && negb (debug lg)) eqn:Hg.
  - unfold silent. by rewrite emit_eq, Hg.
  - unfold rendered. destruct (_fmt msg) as [joined|ex] eqn:Hf.
    + split; [|apply line_of_esc_free].
      by apply (emit_writes_text k lg msg w1 joined).
    + by apply emit_raises.
Qed.

Lemma not_a_tty_no_color_witness :
  let w := world0 ∅ in
  loaded w
  /\ isatty (streams w 2%nat) <> Ok true
  /\ exists lg, __init__ false false true true (StyleStr (lit "emoji")) 2 1 w = (Ok lg, w)
       /\ use_color lg = false
       /\ use_icons lg = false.
Proof.
  intros w. split; [reflexivity|]. split; [discriminate|].
  destruct (not_a_tty_no_color w false false true true (StyleStr (lit "emoji"))
              2%nat 1%nat eq_refl ltac:(discriminate))
    as (_ & lg & Hlg & Hc & Hi & _).
  exists lg. split; [exact Hlg|]. split; [exact Hc | exact Hi].
Defined.

End NonInteractive.

(** ** The debug flag *)

Section DebugFlag.

Lemma lower_char_same (x y : N) : lower_char x = lower_char y <-> same_letter x y.
Proof.
  unfold lower_char, same_letter.
  destruct (N.leb_spec 0x41 x), (N.leb_spec x 0x5A),
           (N.leb_spec 0x41 y), (N.leb_spec y 0x5A); simpl; lia.
Qed.

Lemma lower_eq_caseless (a b : pystr) : lower a = lower b <-> caseless a b.
Proof.
  unfold lower, caseless. revert b.
  induction a as [|x a IH]; intros [|y b]; simpl.
  - split; [constructor | reflexivity].
  - split; [discriminate | inversion 1].
  - split; [discriminate | inversion 1].
  - split.
    + intros [= Hx Ha]. constructor; [by apply lower_char_same | by apply IH].
    + inversion 1; subst. f_equal; [by apply lower_char_same | by apply IH].
Qed.

Lemma truthy_value_lower (val : pystr) :
  truthy_value val <->
  lower val ∈@{gset pystr} {[ lit "1"; lit "true"; lit "yes" ]}.
Proof.
  unfold truthy_value.
  rewrite !elem_of_union, !elem_of_singleton, <- !lower_eq_caseless.
  change (lower (lit "1")) with (lit "1").
  change (lower (lit "true")) with (lit "true").
  change (lower (lit "yes")) with (lit "yes").
  tauto.
Qed.

Lemma env_debug_spec (w : World) :
  env_debug w = true <->
  exists val, environ w !! lit "DEBUG_LOGS" = Some val /\ truthy_value val.
Proof.
  unfold env_debug. rewrite bool_decide_eq_true.
  destruct (environ w !! lit "DEBUG_LOGS") as [val|]; simpl.
  - rewrite <- truthy_value_lower. split.
    + intros H. by exists val.
    + by intros (val' & [= <-] & H).
  - split.
    + rewrite !elem_of_union, !elem_of_singleton. intros [[H|H]|H]; discriminate H.
    + intros (val' & H & _). discriminate H.
Qed.

(** C8.  The constructor returns a logger whose [debug] is the [debug]
    argument or-ed with the environment override: it is true exactly when
    the argument is true or [DEBUG_LOGS] is set to a value that, compared
    case-insensitively, is ["1"], ["true"] or ["yes"]; when the variable is
    absent or holds anything else, [debug] is the argument. *)
Theorem debug_is_flag_or_env (w : World) (d v c i : bool) (sty : StyleArg)
    (o e : stream_id) (Hw : loaded w) :
  exists lg, __init__ d v c i sty o e w = (Ok lg, w)
    /\ (debug lg = true <->
        d = true \/ exists val, environ w !! lit "DEBUG_LOGS" = Some val
                               /\ truthy_value val)
    /\ (environ w !! lit "DEBUG_LOGS" = None -> debug lg = d)
    /\ (forall val, environ w !! lit "DEBUG_LOGS" = Some val ->
          ~ truthy_value val -> debug lg = d).
Proof.
  eexists. split; [by apply init_eq|]. simpl.
  rewrite orb_true_iff, env_debug_spec.
  split; [reflexivity|]. split.
  - intros Hnone.
    assert (Hf : env_debug w = false).
    { apply not_true_is_false. rewrite env_debug_spec.
      intros (val & Hv & _). congruence. }
    by rewrite Hf, orb_false_r.
  - intros val Hval Hnt.
    assert (Hf : env_debug w = false).
    { apply not_true_is_false. rewrite env_debug_spec.
      intros (val' & Hv & Ht). congruence. }
    by rewrite Hf, orb_false_r.
Qed.

Lemma debug_is_flag_or_env_witness :
  let w := world0 {[ lit "DEBUG_LOGS" := lit "Yes" ]} in
  loaded w
  /\ exists lg, __init__ false false true true StyleNone 0 1 w = (Ok lg, w)
       /\ debug lg = true.
Proof.
  intros w. split; [reflexivity|].
  destruct (debug_is_flag_or_env w false false true true StyleNone 0%nat 1%nat eq_refl)
    as (lg & Hlg & Hd & _).
  exists lg. split; [exact Hlg|].
  apply Hd. right. exists (lit "Yes"). split; [reflexivity|].
  right. right. change (caseless [89; 101; 115] [121; 101; 115]).
  constructor; [right; left; split; [lia | reflexivity]|].
  constructor; [by left|].
  constructor; [by left|].
  constructor.
Defined.

End DebugFlag.

(** ** The two streams *)

Section ErrStream.

(** C10.  Take two loggers built from the same arguments but for their
    streams, in loaded worlds whose out streams agree on interactivity.
    Then [err], called with the same message, does the same on the err
    stream of each: it hands it the same text, or, when a part does not
    render, raises the same exception and writes nothing.  The
    interactivity of the err streams plays no part, the flags being
    computed from the out stream alone. *)
Theorem err_text_from_out_stream_only (wa wb : World) (d v c i : bool)
    (sty : StyleArg) (oa ob ea eb : stream_id) (msg : list pyobj)
    (Ha : loaded wa) (Hb : loaded wb)
    (Ho : interactive wa oa = interactive wb ob) :
  exists la lb,
    __init__ d v c i sty oa ea wa = (Ok la, wa)
    /\ __init__ d v c i sty ob eb wb = (Ok lb, wb)
    /\ use_color la = (c && interactive wa oa)
    /\ use_color lb = use_color la
    /\ use_icons la = (i && interactive wa oa)
    /\ use_icons lb = use_icons la
    /\ match _fmt msg with
       | Ok _ =>
           exists text, forall w1 w2,
             writes (err la msg) ea text w1 /\ writes (err lb msg) eb text w2
       | Raise ex =>
           forall w1 w2,
             err la msg w1 = (Raise ex, w1) /\ err lb msg w2 = (Raise ex, w2)
       end.
Proof.
  eexists _, _.
  split; [by apply init_eq|]. split; [by apply init_eq|].
  rewrite <- Ho. simpl. repeat (split; [reflexivity|]).
  destruct (_fmt msg) as [joined|ex] eqn:Hf.
  - eexists. intros w1 w2. split.
    + exact (emit_writes_text KErr _ msg w1 joined _ eq_refl Hf eq_refl).
    + exact (emit_writes_text KErr _ msg w2 joined _ eq_refl Hf eq_refl).
  - intros w1 w2. split.
    + exact (emit_raises KErr _ msg w1 ex eq_refl Hf).
    + exact (emit_raises KErr _ msg w2 ex eq_refl Hf).
Qed.

Lemma err_text_from_out_stream_only_witness :
  let w := world0 ∅ in
  loaded w
  /\ interactive w 0%nat = interactive w 0%nat
  /\ interactive w 0%nat <> interactive w 1%nat
  /\ exists la lb text,
       __init__ false false true true StyleNone 0 0 w = (Ok la, w)
       /\ __init__ false false true true StyleNone 0 1 w = (Ok lb, w)
       /\ writes (err la [PStr (lit "boom")]) 0%nat text w
       /\ writes (err lb [PStr (lit "boom")]) 1%nat text w.
Proof.
  intros w. split; [reflexivity|]. split; [reflexivity|]. split; [discriminate|].
  destruct (err_text_from_out_stream_only w w false false true true StyleNone
              0%nat 0%nat 0%nat 1%nat [PStr (lit "boom")] eq_refl eq_refl eq_refl)
    as (la & lb & Hla & Hlb & _ & _ & _ & _ & text & Hw).
  exists la, lb, text. split; [exact Hla|]. split; [exact Hlb|]. exact (Hw w w).
Defined.

End ErrStream.

(** ** Trimming *)

Section Trimming.

Lemma lstrip_head (s s' : pystr) (c : N) : lstrip s = c :: s' -> isspace c = false.
Proof.
  induction s as [|a s IH]; simpl; [discriminate|].
  destruct (isspace a) eqn:Ha; [exact IH|]. by intros [= <- _].
Qed.

Lemma lstrip_split (s : pystr) : exists p, s = p ++ lstrip s /\ blank p = true.
Proof.
  induction s as [|a s (p & Hs & Hp)]; simpl; [by exists []|].
  destruct (isspace a) eqn:Ha.
  - exists (a :: p). split; [simpl; by rewrite <- Hs|]. simpl. by rewrite Ha.
  - by exists [].
Qed.

Lemma blank_app (a b : pystr) : blank (a ++ b) = blank a && blank b.
Proof. apply forallb_app. Qed.

Lemma blank_rev (s : pystr) : blank (rev s) = blank s.
Proof.
  unfold blank. induction s as [|a s IH]; simpl; [done|].
  rewrite forallb_app, IH. simpl. by rewrite andb_true_r, andb_comm.
Qed.

Lemma blank_lstrip_nil (s : pystr) : blank s = true -> lstrip s = [].
Proof.
  induction s as [|a s IH]; simpl; [done|].
  intros [Ha Hs]%andb_true_iff. rewrite Ha. by apply IH.
Qed.

Lemma rstrip_split (s : pystr) : exists q, s = rstrip s ++ q /\ blank q = true.
Proof.
  destruct (lstrip_split (rev s)) as (p & Hs & Hp).
  exists (rev p). split; [|by rewrite blank_rev].
  unfold rstrip. rewrite <- rev_app_distr, <- Hs. by rewrite rev_involutive.
Qed.

Lemma strip_split (s : pystr) :
  exists p q, s = p ++ strip s ++ q /\ blank p = true /\ blank q = true.
Proof.
  destruct (lstrip_split s) as (p & Hs & Hp).
  destruct (rstrip_split (lstrip s)) as (q & Hl & Hq).
  exists p, q. split; [|done]. unfold strip. by rewrite <- Hl.
Qed.

Lemma last_rev (s : pystr) : last (rev s) = head s.
Proof. destruct s as [|a s]; simpl; [done|]. apply last_snoc. Qed.

Lemma strip_trimmed (s : pystr) : trimmed (strip s).
Proof.
  unfold strip. split; intros c Hc.
  - destruct (rstrip_split (lstrip s)) as (q & Hl & _).
    apply head_Some in Hc as [r Hr]. rewrite Hr in Hl.
    by apply (lstrip_head s (r ++ q) c).
  - unfold rstrip in Hc. rewrite last_rev in Hc.
    apply head_Some in Hc as [r Hr]. by apply (lstrip_head _ _ _ Hr).
Qed.

Lemma strip_nil_iff (s : pystr) : strip s = [] <-> blank s = true.
Proof.
  split.
  - intros Hn. destruct (strip_split s) as (p & q & Hs & Hp & Hq).
    rewrite Hn in Hs. simpl in Hs. rewrite Hs, blank_app, Hp, Hq. done.
  - intros Hb. unfold strip. by rewrite (blank_lstrip_nil s Hb).
Qed.

Lemma blank_strip (s : pystr) : blank (strip s) = blank s.
Proof.
  destruct (strip_split s) as (p & q & Hs & Hp & Hq).
  rewrite Hs at 2. rewrite !blank_app, Hp, Hq. simpl. by rewrite andb_true_r.
Qed.

(** X1.  The prefix never starts and never ends with white space, whatever
    the icon and the label are. *)
Theorem prefix_is_trimmed (self : Log) (icon label : pystr) :
  trimmed (_prefix self icon label).
Proof.
  unfold _prefix.
  destruct (use_icons self && truthy icon); [apply strip_trimmed|].
  rewrite truthy_or_nil. apply strip_trimmed.
Qed.

(** X2.  The prefix is empty exactly when the label is blank and the icon
    is not in use or blank as well; only then is the message written
    without anything in front of it. *)
Theorem prefix_empty_iff (self : Log) (icon label : pystr) :
  _prefix self icon label = [] <->
  blank label = true /\ (use_icons self = false \/ blank icon = true).
Proof.
  unfold _prefix. rewrite truthy_or_nil.
  destruct (use_icons self); cbn [andb].
  - destruct (truthy icon) eqn:Ht.
    + rewrite strip_nil_iff, !blank_app, blank_strip.
      change (blank (lit " ")) with true.
      rewrite !andb_true_iff. intuition congruence.
    + destruct icon; [|discriminate Ht]. rewrite strip_nil_iff. intuition.
  - rewrite strip_nil_iff. intuition.
Qed.

End Trimming.

(** ** Resolution with overrides, and without a default *)

Section Overrides.

Lemma get_style_eq (name : pystr) (ov : gmap pystr pystr) (w : World) (d : LogStyle) :
  w_STYLES w !! lit "default" = Some d ->
  ov !! lit "name" = None ->
  get_style name ov w =
  (if decide (ov = ∅) then Ok (default d (w_STYLES w !! name))
   else replace (default d (w_STYLES w !! name)) ov, w).
Proof.
  intros Hd Hn. unfold get_style.
  destruct (decide (is_Some _)) as [[x Hx]|_]; [congruence|].
  unfold read_STYLES, lift, getitem, mbind, M_bind, mret, M_ret.
  rewrite Hd. by destruct (decide (ov = ∅)).
Qed.

Lemma name_not_a_field : lit "name" ∉ LogStyle_fields.
Proof.
  rewrite list_elem_of_In. simpl.
  intros H. repeat (destruct H as [H|H]; [discriminate H|]). destruct H.
Qed.

Lemma fields_of_table : LogStyle_fields = map fst field_table.
Proof. reflexivity. Qed.

Lemma replace_fields (obj s : LogStyle) (ov : gmap pystr pystr)
    (n : pystr) (g : LogStyle -> pystr) :
  replace obj ov = Ok s -> (n, g) ∈ field_table ->
  g s = default (g obj) (ov !! n).
Proof.
  unfold replace. destruct (decide _) as [_|_]; [|discriminate].
  intros [= <-]. unfold field_table. rewrite !elem_of_cons, elem_of_nil.
  intros H. repeat (destruct H as [[= -> ->]|H]; [reflexivity|]). destruct H.
Qed.

(** X3.  When ["default"] is registered and every override names a field,
    [get_style] returns a Style in which each overridden field holds the
    override and every other field holds what the resolved base (the
    entry of the name, or the default) holds; the world is unchanged. *)
Theorem overrides_set_named_fields (w : World) (name : pystr)
    (ov : gmap pystr pystr) (d : LogStyle)
    (Hd : w_STYLES w !! lit "default" = Some d)
    (Hk : forall n, is_Some (ov !! n) -> n ∈ LogStyle_fields) :
  exists s, get_style name ov w = (Ok s, w)
    /\ forall n g, (n, g) ∈ field_table ->
         g s = match ov !! n with
               | Some x => x
               | None => g (default d (w_STYLES w !! name))
               end.
Proof.
  assert (Hname : ov !! lit "name" = None).
  { destruct (ov !! lit "name") as [x|] eqn:Hx; [|reflexivity].
    destruct name_not_a_field. apply Hk. by exists x. }
  rewrite (get_style_eq name ov w d Hd Hname).
  set (base := default d (w_STYLES w !! name)).
  destruct (decide (ov = ∅)) as [->|Hne].
  - exists base. split; [reflexivity|]. intros n g _. by rewrite lookup_empty.
  - assert (Hsub : dom ov ⊆ list_to_set LogStyle_fields).
    { intros n Hn. apply elem_of_dom in Hn. apply elem_of_list_to_set. by apply Hk. }
    destruct (replace base ov) as [s|ex] eqn:Hr.
    + exists s. split; [reflexivity|]. intros n g Hg.
      rewrite (replace_fields base s ov n g Hr Hg). by destruct (ov !! n).
    + exfalso. unfold replace in Hr.
      destruct (decide _) as [_|Hn]; [discriminate | by apply Hn].
Qed.

Lemma overrides_set_named_fields_witness :
  exists s, get_style (lit "cli") {[ lit "ok_icon" := lit "+" ]} (world0 ∅)
            = (Ok s, world0 ∅)
    /\ ok_icon s = lit "+" /\ ok_label s = lit "[ok]".
Proof.
  assert (Hk : forall n, is_Some (({[ lit "ok_icon" := lit "+" ]} : gmap pystr pystr) !! n)
                         -> n ∈ LogStyle_fields).
  { intros n [x Hx]. apply lookup_singleton_Some in Hx as [<- _].
    apply list_elem_of_In. simpl. tauto. }
  destruct (overrides_set_named_fields (world0 ∅) (lit "cli")
              {[ lit "ok_icon" := lit "+" ]} LogStyle_default eq_refl Hk)
    as (s & Hs & Hf).
  exists s. split; [exact Hs|]. split.
  - apply (Hf (lit "ok_icon") ok_icon). apply list_elem_of_In. simpl. tauto.
  - apply (Hf (lit "ok_label") ok_label). apply list_elem_of_In. simpl. tauto.
Defined.

(** X4.  An override whose name is not a field of [LogStyle] makes
    [get_style] raise [TypeError], for every style name, registered or
    not, and whatever the other overrides are. *)
Theorem unknown_override_raises (w : World) (name : pystr)
    (ov : gmap pystr pystr) (d : LogStyle) (n : pystr)
    (Hd : w_STYLES w !! lit "default" = Some d)
    (Hn : is_Some (ov !! n)) (Hf : n ∉ LogStyle_fields) :
  get_style name ov w = (Raise TypeError, w).
Proof.
  destruct (ov !! lit "name") as [x|] eqn:Hname.
  { unfold get_style. destruct (decide (is_Some _)) as [_|Hno]; [reflexivity|].
    destruct Hno. rewrite Hname. by exists x. }
  rewrite (get_style_eq name ov w d Hd Hname).
  destruct (decide (ov = ∅)) as [->|_].
  - rewrite lookup_empty in Hn. by destruct Hn.
  - unfold replace. destruct (decide _) as [Hsub|_]; [|reflexivity].
    exfalso. apply Hf. apply (elem_of_list_to_set (C:=gset pystr)), Hsub.
    by apply elem_of_dom.
Qed.

Lemma unknown_override_raises_witness :
  get_style (lit "minimal") {[ lit "err_labl" := lit "BOOM" ]} (world0 ∅)
  = (Raise TypeError, world0 ∅).
Proof.
  apply (unknown_override_raises (world0 ∅) (lit "minimal") _ LogStyle_default
           (lit "err_labl") eq_refl).
  - exists (lit "BOOM"). apply lookup_singleton_eq.
  - rewrite list_elem_of_In. simpl.
    intros H. repeat (destruct H as [H|H]; [discriminate H|]). destruct H.
Defined.

Lemma init_with_style (d v c i : bool) (sty : StyleArg) (o e : stream_id)
    (w : World) (r : result LogStyle) :
  (match sty with
   | StyleStr name => get_style name ∅
   | StyleObj s => mret s
   | StyleNone => tbl ← read_STYLES; lift (getitem tbl (lit "default"))
   end) w = (r, w) ->
  __init__ d v c i sty o e w =
  (match r with
   | Ok s => Ok {| debug := d || env_debug w; style := s;
                   use_color := c && interactive w o;
                   use_icons := i && interactive w o;
                   out := o; err_stream := e |}
   | Raise ex => Raise ex
   end, w).
Proof.
  intros Hs.
  assert (Hd : (if d then mret true else
                  v ← getenv (lit "DEBUG_LOGS") [];
                  mret (bool_decide (lower v ∈@{gset pystr}
                                       {[ lit "1"; lit "true"; lit "yes" ]}))) w
               = (Ok (d || env_debug w), w)).
  { destruct d; reflexivity. }
  assert (Ht : forall b : bool, (if b then _is_tty o else mret false) w
                                = (Ok (b && interactive w o), w)).
  { intros [|]; [apply _is_tty_eq | reflexivity]. }
  unfold __init__.
  unfold mbind at 1, M_bind at 1. rewrite Hd.
  unfold mbind at 1, M_bind at 1. rewrite Hs.
  destruct r as [s|ex]; [|reflexivity].
  unfold mbind at 1, M_bind at 1. rewrite Ht.
  unfold mbind at 1, M_bind at 1. rewrite Ht.
  reflexivity.
Qed.

(** X5.  The fallback [STYLES["default"]] is evaluated before the lookup:
    once that entry is gone, [get_style] raises [KeyError] for every name,
    registered ones included, and whatever the overrides are, unless one
    of them is called [name], which is a [TypeError] at the call; the
    constructor raises [KeyError] for a style given by name or not given,
    while a logger built from a [LogStyle] value is still constructed,
    with that style. *)
Theorem default_entry_required (w : World) (name : pystr) (ov : gmap pystr pystr)
    (d v c i : bool) (o e : stream_id)
    (Hd : w_STYLES w !! lit "default" = None) :
  get_style name ov w
  = (Raise (if decide (is_Some (ov !! lit "name")) then TypeError else KeyError), w)
  /\ __init__ d v c i (StyleStr name) o e w = (Raise KeyError, w)
  /\ __init__ d v c i StyleNone o e w = (Raise KeyError, w)
  /\ forall s, exists lg, __init__ d v c i (StyleObj s) o e w = (Ok lg, w)
                          /\ style lg = s.
Proof.
  assert (Hg0 : get_style name ∅ w = (Raise KeyError, w)).
  { unfold get_style.
    destruct (decide (is_Some _)) as [[x Hx]|_]; [by rewrite lookup_empty in Hx|].
    unfold read_STYLES, lift, getitem, mbind, M_bind. by rewrite Hd. }
  split; [|split; [|split]].
  - unfold get_style. destruct (decide (is_Some _)); [reflexivity|].
    unfold read_STYLES, lift, getitem, mbind, M_bind. by rewrite Hd.
  - by rewrite (init_with_style d v c i (StyleStr name) o e w (Raise KeyError) Hg0).
  - rewrite (init_with_style d v c i StyleNone o e w (Raise KeyError)); [done|].
    unfold read_STYLES, lift, getitem, mbind, M_bind. by rewrite Hd.
  - intros s. eexists. split.
    + by rewrite (init_with_style d v c i (StyleObj s) o e w (Ok s)).
    + reflexivity.
Qed.

Lemma default_entry_required_witness :
  w_STYLES world_no_default !! lit "default" = None
  /\ is_Some (w_STYLES world_no_default !! lit "classic")
  /\ get_style (lit "classic") ∅ world_no_default = (Raise KeyError, world_no_default).
Proof.
  split; [reflexivity|]. split; [by eexists|].
  exact (proj1 (default_entry_required world_no_default (lit "classic") ∅
                  false false true true 0%nat 1%nat eq_refl)).
Defined.

End Overrides.

(** ** What construction leaves alone *)

Section ReadOnly.

Lemma readonly_ret {A} (a : A) : readonly (mret a : M A).
Proof. by intros w. Qed.

Lemma readonly_lift {A} (r : result A) : readonly (lift r).
Proof. by intros w. Qed.

Lemma readonly_bind {A B} (c : M A) (k : A -> M B) :
  readonly c -> (forall a, readonly (k a)) -> readonly (c ≫= k).
Proof.
  intros Hc Hk w. unfold mbind, M_bind.
  specialize (Hc w). destruct (c w) as [[a|ex] w']; simpl in Hc; subst w'.
  - apply Hk.
  - reflexivity.
Qed.

Lemma readonly_try {A} (c h : M A) : readonly c -> readonly h -> readonly (try_except c h).
Proof.
  intros Hc Hh w. unfold try_except.
  specialize (Hc w). destruct (c w) as [[a|ex] w']; simpl in Hc; subst w'.
  - reflexivity.
  - apply Hh.
Qed.

Lemma readonly_get_style (name : pystr) (ov : gmap pystr pystr) :
  readonly (get_style name ov).
Proof.
  unfold get_style. destruct (decide (is_Some _)); [apply readonly_lift|].
  apply readonly_bind; [by intros w|]. intros tbl.
  apply readonly_bind; [apply readonly_lift|]. intros dflt.
  destruct (decide (ov = ∅)); [apply readonly_ret | apply readonly_lift].
Qed.

Lemma readonly__is_tty (sid : stream_id) : readonly (_is_tty sid).
Proof. apply readonly_try; [by intros w | apply readonly_ret]. Qed.

(** X6.  Resolving a style and constructing a logger only read: in every
    world and for all arguments, whether they return or raise, they leave
    the [STYLES] table and the environment as they were and write and
    flush nothing on any stream. *)
Theorem construction_reads_only (name : pystr) (ov : gmap pystr pystr)
    (d v c i : bool) (sty : StyleArg) (o e : stream_id) (w : World) :
  snd (get_style name ov w) = w
  /\ snd (__init__ d v c i sty o e w) = w
  /\ forall sid, events (streams (snd (__init__ d v c i sty o e w)) sid)
                 = events (streams w sid).
Proof.
  assert (Hi : readonly (__init__ d v c i sty o e)).
  { unfold __init__.
    apply readonly_bind.
    { destruct d; [apply readonly_ret|].
      apply readonly_bind; [by intros w'|]. intros x. apply readonly_ret. }
    intros self_debug. apply readonly_bind.
    { destruct sty as [n|s|]; [apply readonly_get_style | apply readonly_ret |].
      apply readonly_bind; [by intros w'|]. intros tbl. apply readonly_lift. }
    intros self_style. apply readonly_bind.
    { destruct c; [apply readonly__is_tty | apply readonly_ret]. }
    intros uc. apply readonly_bind.
    { destruct i; [apply readonly__is_tty | apply readonly_ret]. }
    intros ui. apply readonly_ret. }
  split; [apply readonly_get_style|]. split; [apply Hi|].
  intros sid. by rewrite Hi.
Qed.

End ReadOnly.

(** ** Loggers on a preset *)

Section PresetLoggers.

Lemma STYLES_cases (name : pystr) :
  default LogStyle_default (STYLES !! name)
  ∈ [LogStyle_default; style_classic; style_minimal; style_cli; style_emoji; style_plain].
Proof.
  destruct (decide (name ∈ preset_names)) as [Hin|Hn].
  - unfold preset_names in Hin. rewrite !elem_of_cons, elem_of_nil in Hin.
    destruct Hin as [->|[->|[->|[->|[->|[->|[]]]]]]];
      rewrite !elem_of_cons; vm_compute; tauto.
  - rewrite (STYLES_unregistered name Hn). simpl. by left.
Qed.

Lemma preset_labels_trimmed (s : LogStyle) (k : Kind) :
  s ∈ [LogStyle_default; style_classic; style_minimal; style_cli; style_emoji; style_plain] ->
  strip (label_of k s) = label_of k s.
Proof.
  rewrite !elem_of_cons, elem_of_nil.
  intros [->|[->|[->|[->|[->|[->|[]]]]]]]; destruct k; reflexivity.
Qed.

(** X7.  No label of a shipped preset has white space around it, so for a
    logger built with a style name (any name) or without a style the
    prefix of every kind is the icon, a space and the label trimmed as a
    whole when icons are in use and the icon is non-empty, and the label
    otherwise. *)
Theorem preset_prefix_as_documented (w : World) (d v c i : bool) (sty : StyleArg)
    (o e : stream_id) (k : Kind)
    (Hw : loaded w) (Hs : forall s, sty <> StyleObj s) :
  exists lg, __init__ d v c i sty o e w = (Ok lg, w)
    /\ strip (label_of k (style lg)) = label_of k (style lg)
    /\ _prefix lg (icon_of k (style lg)) (label_of k (style lg))
       = if use_icons lg && truthy (icon_of k (style lg))
         then strip (icon_of k (style lg) ++ lit " " ++ label_of k (style lg))
         else label_of k (style lg).
Proof.
  eexists. split; [by apply init_eq|].
  set (lg := mkLog _ _ _ _ o e).
  assert (Hl : strip (label_of k (style lg)) = label_of k (style lg)).
  { apply preset_labels_trimmed. subst lg. simpl.
    destruct sty as [name|s|]; simpl.
    - apply STYLES_cases.
    - by destruct (Hs s).
    - by left. }
  split; [exact Hl|].
  unfold _prefix. rewrite truthy_or_nil, Hl. reflexivity.
Qed.

Lemma preset_prefix_as_documented_witness :
  loaded (world0 ∅)
  /\ exists lg, __init__ false false true true (StyleStr (lit "cli")) 0 1 (world0 ∅)
                = (Ok lg, world0 ∅)
       /\ _prefix lg (icon_of KWarn (style lg)) (label_of KWarn (style lg))
          = [0xE2; 0x2013; 0xB2] ++ lit " [warn]".
Proof.
  split; [reflexivity|].
  destruct (preset_prefix_as_documented (world0 ∅) false false true true
              (StyleStr (lit "cli")) 0%nat 1%nat KWarn eq_refl
              ltac:(intros s; discriminate))
    as (lg & Hlg & _ & Hp).
  exists lg. split; [exact Hlg|].
  rewrite Hp. injection Hlg as <-. reflexivity.
Defined.

End PresetLoggers.

(** ** Sequences of calls *)

Section Sequences.

Lemma wrote_events_at (d sid : stream_id) (text : pystr) (w : World) :
  events (streams (wrote d text w) sid)
  = events (streams w sid) ++ (if decide (d = sid) then [Write text; Flush] else []).
Proof.
  destruct (decide (d = sid)) as [->|Hne].
  - apply wrote_events.
  - rewrite wrote_other by congruence. by rewrite app_nil_r.
Qed.

Lemma emit_trace (k : Kind) (self : Log) (msg : list pyobj) (w : World) :
  completes self (k, msg) ->
  exists w', emit k self msg w = (Ok tt, w')
    /\ (forall sid, events (streams w' sid)
                    = events (streams w sid) ++ trace_of self sid (k, msg))
    /\ (forall sid, isatty (streams w' sid) = isatty (streams w sid))
    /\ w_STYLES w' = w_STYLES w /\ environ w' = environ w.
Proof.
  intros Hc. rewrite emit_eq. unfold trace_of.
  destruct (gated k && negb (debug self)) eqn:Hg.
  - exists w. split; [reflexivity|]. split; [|done].
    intros sid. by rewrite app_nil_r.
  - destruct Hc as [Hc|[joined Hf]]; simpl in *; [congruence|].
    rewrite Hf. eexists. split; [reflexivity|]. split; [|split; [|done]].
    + intros sid. apply wrote_events_at.
    + intros sid. apply wrote_isatty.
Qed.

(** X8.  A sequence of calls on one logger, each of them suppressed by
    the gate or with parts that all render, returns normally and adds to
    the record of each stream, in call order, one write followed by one
    flush for every call that passes the gate and is addressed to that
    stream, and nothing else; so lines never reorder, a suppressed call
    leaves no trace, and when both handles denote one stream the lines of
    [err] interleave with the others in call order. *)
Theorem calls_append_in_order (self : Log) (calls : list (Kind * list pyobj))
    (w : World) (Hc : Forall (completes self) calls) :
  exists w', emit_all self calls w = (Ok tt, w')
    /\ (forall sid, events (streams w' sid)
                    = events (streams w sid) ++ concat (map (trace_of self sid) calls))
    /\ (forall sid, isatty (streams w' sid) = isatty (streams w sid))
    /\ w_STYLES w' = w_STYLES w /\ environ w' = environ w.
Proof.
  revert w. induction Hc as [|[k msg] rest Hcall _ IH]; intros w.
  - exists w. split; [reflexivity|]. split; [|done].
    intros sid. simpl. by rewrite app_nil_r.
  - destruct (emit_trace k self msg w Hcall) as (w1 & He & Hev1 & Ht1 & Hs1 & Hn1).
    destruct (IH w1) as (w2 & Ha & Hev2 & Ht2 & Hs2 & Hn2).
    exists w2. split.
    + simpl. unfold mbind, M_bind. by rewrite He.
    + split; [|split; [|split]].
      * intros sid. simpl. by rewrite Hev2, Hev1, app_assoc.
      * intros sid. by rewrite Ht2, Ht1.
      * by rewrite Hs2, Hs1.
      * by rewrite Hn2, Hn1.
Qed.

Lemma calls_append_in_order_witness :
  let self := mkLog false style_plain false false 0 0 in
  let calls := [(KWarn, [PStr (lit "a")]); (KLog, [PInt ten_pow_4300]);
                (KErr, [PStr (lit "c")])] in
  Forall (completes self) calls
  /\ exists w', emit_all self calls (world0 ∅) = (Ok tt, w')
       /\ events (streams w' 0%nat)
          = [Write (lit "[Warn] a" ++ [0x0A]); Flush;
             Write (lit "[Error] c" ++ [0x0A]); Flush].
Proof.
  intros self calls.
  assert (Hc : Forall (completes self) calls).
  { constructor; [right; by exists (lit "a")|].
    constructor; [by left|].
    constructor; [right; by exists (lit "c")|].
    constructor. }
  split; [exact Hc|].
  destruct (calls_append_in_order self calls (world0 ∅) Hc) as (w' & Hr & Hev & _).
  exists w'. split; [exact Hr|]. rewrite Hev. reflexivity.
Defined.

(** X9.  Calling the same method twice with the same arguments writes the
    same text twice, each write followed by its own flush, and nothing on
    any other stream; behind the gate both calls do nothing; when a part
    does not render the first call raises and nothing is written.  A call
    does not depend on what was written before. *)
Theorem same_call_twice (self : Log) (k : Kind) (msg : list pyobj) (w : World) :
  if gated k && negb (debug self)
  then silent (emit k self msg;; emit k self msg) w
  else match _fmt msg with
       | Ok joined =>
           exists w', (emit k self msg;; emit k self msg) w = (Ok tt, w')
             /\ events (streams w' (dest k self))
                = events (streams w (dest k self))
                  ++ [Write (text_of self k joined); Flush;
                      Write (text_of self k joined); Flush]
             /\ forall sid, sid <> dest k self ->
                  events (streams w' sid) = events (streams w sid)
       | Raise ex => (emit k self msg;; emit k self msg) w = (Raise ex, w)
       end.
Proof.
  destruct (gated k && negb (debug self)) eqn:Hg.
  - unfold silent, mbind, M_bind. rewrite emit_eq, Hg.
    by rewrite emit_eq, Hg.
  - destruct (_fmt msg) as [joined|ex] eqn:Hf.
    + assert (Hc : completes self (k, msg)) by (right; by exists joined).
      destruct (emit_trace k self msg w Hc) as (w1 & He1 & Hev1 & _).
      destruct (emit_trace k self msg w1 Hc) as (w2 & He2 & Hev2 & _).
      exists w2. split; [unfold mbind, M_bind; by rewrite He1|].
      split.
      * rewrite Hev2, Hev1. unfold trace_of. rewrite Hg, Hf.
        destruct (decide (dest k self = dest k self)); [|congruence].
        by rewrite <- app_assoc.
      * intros sid Hne. rewrite Hev2, Hev1. unfold trace_of. rewrite Hg, Hf.
        destruct (decide (dest k self = sid)); [congruence | by rewrite !app_nil_r].
    + unfold mbind, M_bind. by rewrite (emit_raises k self msg w ex Hg Hf).
Qed.

End Sequences.

(** ** The err stream on a terminal session *)

Section ErrColour.

(** X10.  When the out stream is a terminal and colours are requested,
    [err] with parts that render and a non-empty err colour wraps its line
    in the colour code and the reset code on the err stream whatever that
    stream is, a pipe or a file included: the err stream is never asked
    whether it is a terminal. *)
Theorem err_colored_by_out (w w1 : World) (d v i : bool) (sty : StyleArg)
    (o e : stream_id) (msg : list pyobj) (joined : pystr)
    (Hw : loaded w) (Ho : isatty (streams w o) = Ok true)
    (Hf : _fmt msg = Ok joined) :
  exists lg, __init__ d v true i sty o e w = (Ok lg, w)
    /\ use_color lg = true
    /\ (truthy (err_color (style lg)) = true ->
        writes (err lg msg) e
          (err_color (style lg)
           ++ line_of (_prefix lg (err_icon (style lg)) (err_label (style lg))) joined
           ++ bcolors.ENDC ++ [0x0A]) w1).
Proof.
  eexists. split; [by apply init_eq|].
  assert (Hi : interactive w o = true) by (unfold interactive; by rewrite Ho).
  rewrite Hi, andb_true_r. set (lg := mkLog _ _ true _ o e).
  split; [reflexivity|]. intros Hc.
  apply (emit_writes_text KErr lg msg w1 joined); [reflexivity | exact Hf |].
  unfold text_of, colored.
  change (color_of KErr (style lg)) with (err_color (style lg)).
  change (use_color lg) with true. rewrite Hc. cbn [andb].
  by rewrite <- (_prefix_eq lg KErr).
Qed.

Lemma err_colored_by_out_witness :
  loaded (world0 ∅)
  /\ isatty (streams (world0 ∅) 0%nat) = Ok true
  /\ isatty (streams (world0 ∅) 1%nat) = Ok false
  /\ _fmt [PStr (lit "boom")] = Ok (lit "boom")
  /\ exists lg, __init__ false false true false StyleNone 0 1 (world0 ∅)
                = (Ok lg, world0 ∅)
       /\ writes (err lg [PStr (lit "boom")]) 1%nat
            (bcolors.FAIL ++ lit "[Error] boom" ++ bcolors.ENDC ++ [0x0A]) (world0 ∅).
Proof.
  split; [reflexivity|]. split; [reflexivity|]. split; [reflexivity|].
  split; [reflexivity|].
  destruct (err_colored_by_out (world0 ∅) (world0 ∅) false false false StyleNone
              0%nat 1%nat [PStr (lit "boom")] (lit "boom") eq_refl eq_refl eq_refl)
    as (lg & Hlg & _ & Hwr).
  exists lg. split; [exact Hlg|].
  injection Hlg as <-. exact (Hwr eq_refl).
Defined.

End ErrColour.

(** ** Message text *)

Section MessageText.

Lemma join_app (sep : pystr) (a b : list pystr) :
  a <> [] -> b <> [] -> join sep (a ++ b) = join sep a ++ sep ++ join sep b.
Proof.
  intros Ha Hb. induction a as [|p [|q r] IH]; [done| |].
  - destruct b as [|x b]; [done|]. reflexivity.
  - change (join sep ((p :: q :: r) ++ b)) with (p ++ sep ++ join sep ((q :: r) ++ b)).
    rewrite IH by done.
    change (join sep (p :: q :: r)) with (p ++ sep ++ join sep (q :: r)).
    by rewrite <- !app_assoc.
Qed.

Lemma render_all_app (a b : list pyobj) (pa pb : list pystr) :
  render_all a = Ok pa -> render_all b = Ok pb ->
  render_all (a ++ b) = Ok (pa ++ pb).
Proof.
  revert pa. induction a as [|m a IH]; intros pa; simpl.
  - by intros [= <-].
  - destruct (str m) as [s|ex]; [|discriminate].
    destruct (render_all a) as [ps|ex]; [|discriminate].
    intros [= <-] Hb. by rewrite (IH ps eq_refl Hb).
Qed.

Lemma render_all_nil (a : list pyobj) : render_all a = Ok [] -> a = [].
Proof.
  destruct a as [|m a]; simpl; [done|].
  destruct (str m); [|discriminate]. by destruct (render_all a).
Qed.

Lemma emit_by_text (k : Kind) (self : Log) (m1 m2 : list pyobj) (w : World) :
  _fmt m1 = _fmt m2 -> emit k self m1 w = emit k self m2 w.
Proof. intros Hf. by rewrite !emit_eq, Hf. Qed.

(** X11.  Only the space-joined rendering of the parts matters: for two
    non-empty groups of parts that render, the message of the two
    together is the message of the first, one space and the message of
    the second, and passing them does what passing that one string does. *)
Theorem parts_or_joined (k : Kind) (self : Log) (a b : list pyobj) (w : World)
    (ta tb : pystr)
    (Ha : a <> []) (Hb : b <> [])
    (Hta : _fmt a = Ok ta) (Htb : _fmt b = Ok tb) :
  _fmt (a ++ b) = Ok (ta ++ lit " " ++ tb)
  /\ emit k self (a ++ b) w = emit k self [PStr (ta ++ lit " " ++ tb)] w.
Proof.
  assert (Hf : _fmt (a ++ b) = Ok (ta ++ lit " " ++ tb)).
  { unfold _fmt in *.
    destruct (render_all a) as [pa|ex] eqn:Hra; [|discriminate].
    destruct (render_all b) as [pb|ex] eqn:Hrb; [|discriminate].
    injection Hta as <-. injection Htb as <-.
    rewrite (render_all_app a b pa pb Hra Hrb). f_equal. apply join_app.
    - intros ->. by apply Ha, render_all_nil.
    - intros ->. by apply Hb, render_all_nil. }
  split; [exact Hf|]. apply emit_by_text. by rewrite Hf.
Qed.

Lemma parts_or_joined_witness :
  emit KOk (mkLog false style_plain false false 0 1)
    ([PStr (lit "a"); PInt 1] ++ [PBool true]) (world0 ∅)
  = emit KOk (mkLog false style_plain false false 0 1)
      [PStr (lit "a 1 True")] (world0 ∅).
Proof.
  exact (proj2 (parts_or_joined KOk (mkLog false style_plain false false 0 1)
                  [PStr (lit "a"); PInt 1] [PBool true] (world0 ∅)
                  (lit "a 1") (lit "True")
                  ltac:(discriminate) ltac:(discriminate) eq_refl eq_refl)).
Defined.

(** X12.  If the icon, the label and the colour of the kind hold no
    newline, every part renders and no rendering holds one, a call that
    passes the gate writes a text whose only newline is its last
    character: one line in the strict sense. *)
Theorem one_newline_at_the_end (self : Log) (k : Kind) (msg : list pyobj) (w : World)
    (parts : list pystr)
    (Hg : gated k && negb (debug self) = false)
    (Hi : 0x0A ∉ icon_of k (style self))
    (Hl : 0x0A ∉ label_of k (style self))
    (Hc : 0x0A ∉ color_of k (style self))
    (Hr : Forall2 (fun m s => str m = Ok s) msg parts)
    (Hm : Forall (fun s => 0x0A ∉ s) parts) :
  exists body, writes (emit k self msg) (dest k self) (body ++ [0x0A]) w
               /\ 0x0A ∉ body.
Proof.
  assert (Hf : _fmt msg = Ok (join (lit " ") parts)).
  { apply _fmt_Ok. by exists parts. }
  assert (Hj : 0x0A ∉ join (lit " ") parts).
  { intros Hin. apply join_elem in Hin as [Hin|(p & Hp & Hin)].
    - rewrite list_elem_of_In in Hin. destruct Hin as [H|[]]. discriminate H.
    - rewrite Forall_forall in Hm. by apply (Hm p). }
  destruct (text_of_newline self k (join (lit " ") parts)) as (body & Hb & Hn).
  exists body. split; [|by apply Hn].
  by apply (emit_writes_text k self msg w (join (lit " ") parts)).
Qed.

Lemma one_newline_at_the_end_witness :
  exists body,
    writes (warn (mkLog false style_cli true true 0 1) [PStr (lit "disk"); PInt 9])
      0%nat (body ++ [0x0A]) (world0 ∅)
    /\ 0x0A ∉ body.
Proof.
  apply (one_newline_at_the_end (mkLog false style_cli true true 0 1) KWarn
           [PStr (lit "disk"); PInt 9] (world0 ∅) [lit "disk"; lit "9"] eq_refl).
  - rewrite list_elem_of_In. simpl.
    intros H. repeat (destruct H as [H|H]; [discriminate H|]). destruct H.
  - rewrite list_elem_of_In. simpl.
    intros H. repeat (destruct H as [H|H]; [discriminate H|]). destruct H.
  - rewrite list_elem_of_In. simpl.
    intros H. repeat (destruct H as [H|H]; [discriminate H|]). destruct H.
  - constructor; [reflexivity|]. constructor; [reflexivity|]. constructor.
  - constructor; [|constructor; [|constructor]]; rewrite list_elem_of_In; simpl;
      intros H; repeat (destruct H as [H|H]; [discriminate H|]); destruct H.
Defined.

End MessageText.
